(** * Netflix viewing-history analyzer: normalizer and binge-session segmenter

    A shallow embedding of [netflix_analyzer.py]: [clean_data],
    [show_basic_stats], [binge_analysis] and [main].

    The script works on pandas data frames, which are mutable objects
    reached through Python variables.  The embedding therefore has

    - a data frame as an index plus a list of labelled, typed columns;
    - the pandas operations the script calls, as functions on columns and
      frames;
    - a store of frame objects and a state-and-exception monad over it, in
      which every statement of the script names the object it reads or
      writes.

    Modelling conventions.
    - Text is a sequence of Unicode code points, as a Python [str].
    - A timestamp is a number of nanoseconds since the epoch, a time delta a
      number of nanoseconds; both are unbounded integers here.
    - A float column holds exact rationals.
    - Raw input cells are text or missing, as read from a delimited-text
      export; where pandas would coerce a column of another dtype and the
      script never produces such a column, the model stops with
      [Unsupported].
    - What the pandas installation decides and the script does not (how a
      date string is parsed, in which order the default sort leaves equal
      keys) is a parameter, see [Platform].
    - Console output and plotting are left out; the values they would show
      are returned. *)

From Stdlib Require Import String Ascii ZArith NArith QArith Qreduction Bool Lia List.
From Stdlib Require Import Permutation Sorted.
Import ListNotations.
Local Open Scope string_scope.
Local Open Scope list_scope.
Local Open Scope Z_scope.

(** ** Values *)

(** A Python [str]: its code points. *)
Definition str := list N.

Definition of_string (s : string) : str :=
  map N_of_ascii (list_ascii_of_string s).

(** A column with its dtype.  [None] is the missing value of the dtype
    (NaN, None or NaT). *)
Inductive column :=
| Text (xs : list (option str))
| Datetime (xs : list (option Z))
| Timedelta (xs : list (option Z))
| Int64 (xs : list (option Z))
| Boolean (xs : list bool)
| Float (xs : list (option Q)).

Record DataFrame := mkDataFrame {
  index : list Z;
  columns : list (string * column)
}.

Definition col_length (c : column) : nat :=
  match c with
  | Text xs => length xs
  | Datetime xs => length xs
  | Timedelta xs => length xs
  | Int64 xs => length xs
  | Boolean xs => length xs
  | Float xs => length xs
  end.

(** [len(df)] *)
Definition len (df : DataFrame) : nat := length (index df).

(** Every column is as long as the index. *)
Definition well_formed (df : DataFrame) : Prop :=
  Forall (fun p => col_length (snd p) = len df) (columns df).

(** ** Exceptions and results *)

Inductive exn :=
| KeyError (label : string)        (* no column has this label *)
| NotASeries (label : string)      (* the label selects several columns, and
                                      the caller needs one *)
| DateParseError (position : nat)  (* to_datetime: unparseable cell *)
| NaTStrftime                      (* ValueError: NaT has no strftime *)
| ZeroDivisionError
| TypeError
| LengthMismatch
| Unsupported                      (* outside the modelled fragment *)
| Dangling.                        (* a reference to no object *)

Inductive result (A : Type) :=
| Ok (a : A)
| Err (e : exn).
Arguments Ok {A} a.
Arguments Err {A} e.

Definition rmap {A B} (f : A -> B) (r : result A) : result B :=
  match r with Ok a => Ok (f a) | Err e => Err e end.

Definition rbind {A B} (r : result A) (f : A -> result B) : result B :=
  match r with Ok a => f a | Err e => Err e end.

(** ** The store of frame objects *)

Definition ref := nat.
Bind Scope nat_scope with ref.
Definition store := list DataFrame.

(** A statement: it runs in a store, leaves a store, and returns or raises.
    The store survives a raise, as Python's heap does. *)
Definition M (A : Type) := store -> result A * store.

Definition ret {A} (a : A) : M A := fun s => (Ok a, s).
Definition raise {A} (e : exn) : M A := fun s => (Err e, s).
Definition bind {A B} (m : M A) (k : A -> M B) : M B :=
  fun s => match m s with
           | (Ok a, s') => k a s'
           | (Err e, s') => (Err e, s')
           end.
Definition lift {A} (r : result A) : M A := fun s => (r, s).

Declare Scope stmt_scope.
Delimit Scope stmt_scope with stmt.
Notation "x <- m ;; k" := (bind m (fun x => k))
  (at level 61, m at next level, right associativity) : stmt_scope.
Notation "m ;; k" := (bind m (fun _ => k))
  (at level 61, right associativity) : stmt_scope.
Local Open Scope stmt_scope.

Fixpoint update {A} (n : nat) (x : A) (l : list A) : list A :=
  match l, n with
  | [], _ => []
  | _ :: t, O => x :: t
  | h :: t, S n' => h :: update n' x t
  end.

(** A new object. *)
Definition alloc (df : DataFrame) : M ref :=
  fun s => (Ok (length s), s ++ [df]).

(** Read from the object [r]. *)
Definition read {A} (r : ref) (f : DataFrame -> result A) : M A :=
  fun s => match nth_error s r with
           | Some df => (f df, s)
           | None => (Err Dangling, s)
           end.

(** Mutate the object [r] in place. *)
Definition modify (r : ref) (f : DataFrame -> DataFrame) : M unit :=
  fun s => match nth_error s r with
           | Some df => (Ok tt, update r (f df) s)
           | None => (Err Dangling, s)
           end.

Definition load (r : ref) : M DataFrame := read r Ok.

(** ** Frames: labels and columns *)

Definition labelled (k : string) (p : string * column) : bool :=
  String.eqb (fst p) k.

(** [label in df.columns] *)
Definition has_column (k : string) (df : DataFrame) : bool :=
  existsb (labelled k) (columns df).

(** [df[label]], where the caller goes on with a Series.  A label carried by
    several columns selects a frame, on which the callers in this script
    ([pd.to_datetime], [.str], [.dt], [groupby]) raise. *)
Definition get_column (k : string) (df : DataFrame) : result column :=
  match filter (labelled k) (columns df) with
  | [] => Err (KeyError k)
  | [(_, c)] => Ok c
  | _ => Err (NotASeries k)
  end.

(** [df[label] = c]: every column with this label is replaced; with no such
    column, one is appended. *)
Definition set_column (k : string) (c : column) (df : DataFrame) : DataFrame :=
  mkDataFrame (index df)
    (if has_column k df
     then map (fun p => if labelled k p then (k, c) else p) (columns df)
     else columns df ++ [(k, c)]).

(** [df.rename(columns={old: new})] *)
Definition rename (old new : string) (df : DataFrame) : DataFrame :=
  mkDataFrame (index df)
    (map (fun p => if labelled old p then (new, snd p) else p) (columns df)).

(** [df.columns = labels] *)
Definition set_labels (labels : list string) (df : DataFrame) : result DataFrame :=
  if Nat.eqb (length labels) (length (columns df))
  then Ok (mkDataFrame (index df) (combine labels (map snd (columns df))))
  else Err LengthMismatch.

(** ** Calendar *)

Definition ns_per_second : Z := 1000000000.
Definition ns_per_hour : Z := 3600 * ns_per_second.
Definition ns_per_day : Z := 24 * ns_per_hour.

(** [pd.Timedelta(hours=h)] *)
Definition Timedelta_hours (h : Z) : Z := h * ns_per_hour.

(** Days since 1970-01-01 (the [.dt.date] of a timestamp). *)
Definition date_of (t : Z) : Z := t / ns_per_day.

(** Proleptic Gregorian year and month of a day number. *)
Definition civil_of_days (z : Z) : Z * Z :=
  let z := z + 719468 in
  let era := z / 146097 in
  let doe := z - era * 146097 in
  let yoe := (doe - doe / 1460 + doe / 36524 - doe / 146096) / 365 in
  let doy := doe - (365 * yoe + yoe / 4 - yoe / 100) in
  let mp := (5 * doy + 2) / 153 in
  let m := if mp <? 10 then mp + 3 else mp - 9 in
  (yoe + era * 400 + (if m <=? 2 then 1 else 0), m).

Definition year_of (t : Z) : Z := fst (civil_of_days (date_of t)).
Definition month_of (t : Z) : Z := snd (civil_of_days (date_of t)).
Definition hour_of (t : Z) : Z := (t mod ns_per_day) / ns_per_hour.

Definition day_names : list string :=
  ["Monday"; "Tuesday"; "Wednesday"; "Thursday"; "Friday"; "Saturday"; "Sunday"].

(** 1970-01-01 was a Thursday. *)
Definition day_name_of (t : Z) : str :=
  of_string (nth (Z.to_nat ((date_of t + 3) mod 7)) day_names "").

(** The [.dt] accessor: only on datetime columns. *)
Definition dt_field (f : Z -> Z) (c : column) : result column :=
  match c with
  | Datetime xs => Ok (Int64 (map (option_map f) xs))
  | _ => Err TypeError
  end.

Definition dt_year := dt_field year_of.
Definition dt_month := dt_field month_of.
Definition dt_hour := dt_field hour_of.

Definition dt_day_name (c : column) : result column :=
  match c with
  | Datetime xs => Ok (Text (map (option_map day_name_of) xs))
  | _ => Err TypeError
  end.

(** ** Regular expressions, as far as the script uses them *)

(** The zeros of the decimal-digit blocks of ten of Unicode 15.0 (general
    category Nd), and the mathematical digits besides: what [\d] matches
    in a [str] pattern. *)
Definition Nd_zeros : list N :=
  [ 0x0030; 0x0660; 0x06F0; 0x07C0; 0x0966; 0x09E6; 0x0A66; 0x0AE6; 0x0B66;
    0x0BE6; 0x0C66; 0x0CE6; 0x0D66; 0x0DE6; 0x0E50; 0x0ED0; 0x0F20; 0x1040;
    0x1090; 0x17E0; 0x1810; 0x1946; 0x19D0; 0x1A80; 0x1A90; 0x1B50; 0x1BB0;
    0x1C40; 0x1C50; 0xA620; 0xA8D0; 0xA900; 0xA9D0; 0xA9F0; 0xAA50; 0xABF0;
    0xFF10; 0x104A0; 0x10D30; 0x11066; 0x110F0; 0x11136; 0x111D0; 0x112F0;
    0x11450; 0x114D0; 0x11650; 0x116C0; 0x11730; 0x118E0; 0x11950; 0x11C50;
    0x11D50; 0x11DA0; 0x11F50; 0x16A60; 0x16AC0; 0x16B50; 0x1E140; 0x1E2F0;
    0x1E4F0; 0x1E950; 0x1FBF0 ]%N.

Definition between (lo hi c : N) : bool := ((lo <=? c) && (c <=? hi))%N.

Definition is_decimal (c : N) : bool :=
  existsb (fun z => between z (z + 9) c) Nd_zeros || between 0x1D7CE 0x1D7FF c.

Definition is_ascii_digit (c : N) : bool := between 0x30 0x39 c.

Inductive atom :=
| Lit (c : N)      (* one given character *)
| Digit.           (* \d *)

Definition atom_matches (a : atom) (c : N) : bool :=
  match a with
  | Lit c' => N.eqb c c'
  | Digit => is_decimal c
  end.

(** The pattern matches at the start of the text. *)
Fixpoint re_match (pat : list atom) (s : str) : bool :=
  match pat, s with
  | [], _ => true
  | a :: pat', c :: s' => atom_matches a c && re_match pat' s'
  | _ :: _, [] => false
  end.

(** [re.search]: the pattern matches somewhere in the text. *)
Fixpoint re_search (pat : list atom) (s : str) : bool :=
  re_match pat s ||
  match s with
  | [] => false
  | _ :: s' => re_search pat s'
  end.

(** [r'\(\d{4}\)'] *)
Definition year_pattern : list atom :=
  [Lit 0x28%N; Digit; Digit; Digit; Digit; Lit 0x29%N].

(** [Series.str.contains(pat, na=na)]: only on text columns. *)
Definition str_contains (pat : list atom) (na : bool) (c : column) : result column :=
  match c with
  | Text xs =>
      Ok (Boolean (map (fun x => match x with
                                 | Some s => re_search pat s
                                 | None => na
                                 end) xs))
  | _ => Err TypeError
  end.

(** [~series] on a boolean column. *)
Definition invert (c : column) : result column :=
  match c with
  | Boolean bs => Ok (Boolean (map negb bs))
  | _ => Err TypeError
  end.

(** ** Positional selection *)

(** [xs.take(ix)]: the cells of [xs] at the positions [ix], in that order. *)
Definition take {A} (d : A) (ix : list nat) (xs : list A) : list A :=
  map (fun i => nth i xs d) ix.

Definition take_column (ix : list nat) (c : column) : column :=
  match c with
  | Text xs => Text (take None ix xs)
  | Datetime xs => Datetime (take None ix xs)
  | Timedelta xs => Timedelta (take None ix xs)
  | Int64 xs => Int64 (take None ix xs)
  | Boolean xs => Boolean (take false ix xs)
  | Float xs => Float (take None ix xs)
  end.

Definition take_frame (ix : list nat) (df : DataFrame) : DataFrame :=
  mkDataFrame (take 0 ix (index df))
    (map (fun p => (fst p, take_column ix (snd p))) (columns df)).

(** [xs[mask]]: the cells of [xs] where the mask holds. *)
Definition select {A} (mask : list bool) (xs : list A) : list A :=
  map snd (filter fst (combine mask xs)).

Definition select_column (mask : list bool) (c : column) : column :=
  match c with
  | Text xs => Text (select mask xs)
  | Datetime xs => Datetime (select mask xs)
  | Timedelta xs => Timedelta (select mask xs)
  | Int64 xs => Int64 (select mask xs)
  | Boolean xs => Boolean (select mask xs)
  | Float xs => Float (select mask xs)
  end.

(** [df[mask]] with a boolean column as mask. *)
Definition filter_rows (mask : column) (df : DataFrame) : result DataFrame :=
  match mask with
  | Boolean bs =>
      Ok (mkDataFrame (select bs (index df))
            (map (fun p => (fst p, select_column bs (snd p))) (columns df)))
  | _ => Err Unsupported
  end.

(** ** What the installation decides *)

(** The order in which [sort_values] leaves a datetime column: ascending,
    NaT last. *)
Definition na_last_le (a b : option Z) : Prop :=
  match a, b with
  | Some x, Some y => x <= y
  | _, None => True
  | None, Some _ => False
  end.

(** - [strptime col cell]: how [pd.to_datetime] reads one text cell of the
      column [col] (whose other cells may fix the format it infers):
      [None] when it cannot, [Some None] for a text that stands for NaT,
      [Some (Some t)] for a timestamp.
    - [argsort keys]: the positions of the keys in the order the default
      sort ([kind='quicksort']) puts them.  Its contract is that of any
      sort: a permutation of the positions that leaves the keys in order.
      How it orders equal keys is not part of it. *)
Class Platform := {
  strptime : list (option str) -> str -> option (option Z);
  argsort : list (option Z) -> list nat;
  argsort_perm : forall ks, Permutation (argsort ks) (seq 0 (length ks));
  argsort_sorted : forall ks, Sorted na_last_le (take None (argsort ks) ks)
}.

(** ** Column operations of the normalizer *)

(** The cells of a text column parsed from left to right; the first cell
    that does not parse raises, with its position. *)
Fixpoint parse_cells (p : str -> option (option Z)) (pos : nat)
    (xs : list (option str)) : result (list (option Z)) :=
  match xs with
  | [] => Ok []
  | None :: xs' => rmap (cons None) (parse_cells p (S pos) xs')
  | Some s :: xs' =>
      match p s with
      | None => Err (DateParseError pos)
      | Some t => rmap (cons t) (parse_cells p (S pos) xs')
      end
  end.

(** [pd.to_datetime(series)] with the default [errors='raise']. *)
Definition to_datetime `{Platform} (c : column) : result column :=
  match c with
  | Text xs => rmap Datetime (parse_cells (strptime xs) 0 xs)
  | Datetime xs => Ok (Datetime xs)
  | Timedelta _ | Boolean _ => Err TypeError
  | Int64 _ | Float _ => Err Unsupported
  end.

(** ** Column operations of the segmenter *)

(** [df.sort_values(by)]: a new frame, the rows in the order of the keys. *)
Definition sort_frame `{Platform} (by_ : string) (df : DataFrame) : result DataFrame :=
  rbind (get_column by_ df) (fun c =>
    match c with
    | Datetime ks => Ok (take_frame (argsort ks) df)
    | _ => Err Unsupported
    end).

Definition osub (a b : option Z) : option Z :=
  match a, b with
  | Some x, Some y => Some (x - y)
  | _, _ => None
  end.

Fixpoint diff_from (prev : option Z) (xs : list (option Z)) : list (option Z) :=
  match xs with
  | [] => []
  | x :: xs' => osub x prev :: diff_from x xs'
  end.

(** [series.diff()]: each cell minus the one before; the first has none
    before it and gets NaT. *)
Definition diff (c : column) : result column :=
  match c with
  | Datetime xs => Ok (Timedelta (diff_from None xs))
  | _ => Err Unsupported
  end.

(** [series > threshold] for a timedelta threshold; a comparison with NaT
    is false. *)
Definition gt_timedelta (threshold : Z) (c : column) : result column :=
  match c with
  | Timedelta ds =>
      Ok (Boolean (map (fun d => match d with
                                 | Some d => threshold <? d
                                 | None => false
                                 end) ds))
  | _ => Err TypeError
  end.

Fixpoint cumsum_from (acc : Z) (bs : list bool) : list Z :=
  match bs with
  | [] => []
  | b :: bs' =>
      let acc' := acc + (if b then 1 else 0) in
      acc' :: cumsum_from acc' bs'
  end.

(** [series.cumsum()] of a boolean column: the running count of [True]. *)
Definition cumsum (c : column) : result column :=
  match c with
  | Boolean bs => Ok (Int64 (map Some (cumsum_from 0 bs)))
  | _ => Err Unsupported
  end.

(** ** Grouping *)

Fixpoint insert_key (k : Z) (l : list Z) : list Z :=
  match l with
  | [] => [k]
  | h :: t => if k <=? h then k :: l else h :: insert_key k t
  end.

Definition sort_keys (l : list Z) : list Z := fold_right insert_key [] l.

Definition somes {A} (xs : list (option A)) : list A :=
  flat_map (fun x => match x with Some a => [a] | None => [] end) xs.

Definition has_key (k : Z) (x : option Z) : bool :=
  match x with
  | Some k' => Z.eqb k' k
  | None => false
  end.

(** The group keys of [groupby]: the distinct keys in ascending order
    ([sort=True]); rows with a missing key are in no group. *)
Definition group_keys (ks : list (option Z)) : list Z :=
  sort_keys (nodup Z.eq_dec (somes ks)).

(** The positions of the rows of one group, in row order. *)
Definition positions_of (k : Z) (ks : list (option Z)) : list nat :=
  map fst (filter (fun p => has_key k (snd p))
             (combine (seq 0 (length ks)) ks)).

(** [groupby(...).indices]: each group key with the positions of its rows. *)
Definition groupby_indices (ks : list (option Z)) : list (Z * list nat) :=
  map (fun k => (k, positions_of k ks)) (group_keys ks).

Definition notna (c : column) : list bool :=
  let some {A} (x : option A) := match x with Some _ => true | None => false end in
  match c with
  | Text xs => map some xs
  | Datetime xs => map some xs
  | Timedelta xs => map some xs
  | Int64 xs => map some xs
  | Boolean xs => map (fun _ => true) xs
  | Float xs => map some xs
  end.

(** ['count']: the cells of the group that are not missing. *)
Definition agg_count (c : column) (rows : list nat) : Z :=
  Z.of_nat (length (filter (fun b : bool => b) (take false rows (notna c)))).

Definition pick (f : Z -> Z -> Z) (x acc : option Z) : option Z :=
  match x, acc with
  | Some a, Some b => Some (f a b)
  | Some a, None => Some a
  | None, _ => acc
  end.

(** ['min'] and ['max'] skip NaT; of no timestamp at all they are NaT. *)
Definition omin (xs : list (option Z)) : option Z := fold_right (pick Z.min) None xs.
Definition omax (xs : list (option Z)) : option Z := fold_right (pick Z.max) None xs.

Definition agg_label (col how : string) : string :=
  "('" ++ col ++ "', '" ++ how ++ "')".

(** [df.groupby(by).agg({counted: 'count', ranged: ['min', 'max']})]: a new
    frame with the group keys as index. *)
Definition groupby_agg (by_ counted ranged : string) (df : DataFrame)
  : result DataFrame :=
  rbind (get_column by_ df) (fun kc =>
  match kc with
  | Int64 ks =>
      rbind (get_column counted df) (fun cc =>
      rbind (get_column ranged df) (fun rc =>
      match rc with
      | Datetime ts =>
          let groups := groupby_indices ks in
          Ok (mkDataFrame (map fst groups)
                [ (agg_label counted "count",
                   Int64 (map (fun g => Some (agg_count cc (snd g))) groups));
                  (agg_label ranged "min",
                   Datetime (map (fun g => omin (take None (snd g) ts)) groups));
                  (agg_label ranged "max",
                   Datetime (map (fun g => omax (take None (snd g) ts)) groups)) ])
      | _ => Err Unsupported
      end))
  | _ => Err Unsupported
  end).

(** [a - b] on datetime columns of one frame. *)
Definition sub_datetime (a b : column) : result column :=
  match a, b with
  | Datetime xs, Datetime ys =>
      Ok (Timedelta (map (fun p => osub (fst p) (snd p)) (combine xs ys)))
  | _, _ => Err Unsupported
  end.

(** [series.dt.total_seconds()] *)
Definition total_seconds (c : column) : result column :=
  match c with
  | Timedelta ds =>
      Ok (Float (map (option_map (fun d => Qred (Qmake d 1 / inject_Z ns_per_second))) ds))
  | _ => Err TypeError
  end.

(** [series / n] on a float column. *)
Definition div_float (n : Z) (c : column) : result column :=
  match c with
  | Float qs => Ok (Float (map (option_map (fun q => Qred (q / inject_Z n))) qs))
  | _ => Err Unsupported
  end.

(** [series > n] on an integer column. *)
Definition gt_int (n : Z) (c : column) : result column :=
  match c with
  | Int64 xs =>
      Ok (Boolean (map (fun x => match x with
                                 | Some v => n <? v
                                 | None => false
                                 end) xs))
  | _ => Err Unsupported
  end.

(** ** Column operations of the report *)

(** [series.sum()] of a boolean column. *)
Definition sum_bool (c : column) : result Z :=
  match c with
  | Boolean bs => Ok (Z.of_nat (length (filter (fun b : bool => b) bs)))
  | _ => Err Unsupported
  end.

(** [series.min()] and [series.max()] of a datetime column. *)
Definition min_datetime (c : column) : result (option Z) :=
  match c with
  | Datetime ts => Ok (omin ts)
  | _ => Err Unsupported
  end.

Definition max_datetime (c : column) : result (option Z) :=
  match c with
  | Datetime ts => Ok (omax ts)
  | _ => Err Unsupported
  end.

(** [timestamp.strftime('%Y-%m-%d')]: NaT raises.  The text is left out;
    the day it names is returned. *)
Definition strftime (t : option Z) : result Z :=
  match t with
  | Some t => Ok (date_of t)
  | None => Err NaTStrftime
  end.

(** [series.dt.date.nunique()]: the distinct days, NaT not counted. *)
Definition nunique_dates (c : column) : result Z :=
  match c with
  | Datetime ts => Ok (Z.of_nat (length (nodup Z.eq_dec (map date_of (somes ts)))))
  | _ => Err TypeError
  end.

(** [a / b] on Python integers. *)
Definition truediv (a b : Z) : result Q :=
  if b =? 0 then Err ZeroDivisionError else Ok (Qred (inject_Z a / inject_Z b)).

(** [a / b * 100] with [a] a numpy integer: a zero divisor gives nan or inf
    (here [None]) and a warning, not an exception. *)
Definition percent (a b : Z) : option Q :=
  if b =? 0 then None else Some (Qred (inject_Z a / inject_Z b * inject_Z 100)).

(** ** Statements on frame objects *)

(** [df[label]] *)
Definition getitem (r : ref) (k : string) : M column := read r (get_column k).

(** [df[label] = c] *)
Definition setitem (r : ref) (k : string) (c : column) : M unit :=
  modify r (set_column k c).

(** [df.copy()] *)
Definition copy (r : ref) : M ref :=
  df <- load r ;; alloc df.

(** [df.rename(columns={old: new}, inplace=True)] *)
Definition rename_inplace (r : ref) (old new : string) : M unit :=
  modify r (rename old new).

(** A method that builds a new frame from the frame [r]. *)
Definition derive (r : ref) (f : DataFrame -> result DataFrame) : M ref :=
  df <- load r ;; df' <- lift (f df) ;; alloc df'.

(** [df.columns = labels] *)
Definition set_columns (r : ref) (labels : list string) : M unit :=
  df <- load r ;; df' <- lift (set_labels labels df) ;; modify r (fun _ => df').

Fixpoint for_each {A} (l : list A) (body : A -> M unit) : M unit :=
  match l with
  | [] => ret tt
  | x :: l' => body x ;; for_each l' body
  end.

(** ** The script *)

Definition column_mapping : list (string * string) :=
  [ ("Title", "title");
    ("Date", "date");
    ("Profile Name", "profile_name");
    ("title", "title");
    ("date", "date") ].

Definition clean_data `{Platform} (df : ref) : M ref :=
  clean_df <- copy df ;;
  for_each column_mapping (fun '(old_col, new_col) =>
    present <- read clean_df (fun d => Ok (has_column old_col d)) ;;
    if present : bool then rename_inplace clean_df old_col new_col else ret tt) ;;
  date <- getitem clean_df "date" ;;
  date <- lift (to_datetime date) ;;
  setitem clean_df "date" date ;;
  date <- getitem clean_df "date" ;;
  year <- lift (dt_year date) ;;
  setitem clean_df "year" year ;;
  date <- getitem clean_df "date" ;;
  month <- lift (dt_month date) ;;
  setitem clean_df "month" month ;;
  date <- getitem clean_df "date" ;;
  day_of_week <- lift (dt_day_name date) ;;
  setitem clean_df "day_of_week" day_of_week ;;
  date <- getitem clean_df "date" ;;
  hour <- lift (dt_hour date) ;;
  setitem clean_df "hour" hour ;;
  title <- getitem clean_df "title" ;;
  is_movie <- lift (str_contains year_pattern false title) ;;
  setitem clean_df "is_movie" is_movie ;;
  is_movie <- getitem clean_df "is_movie" ;;
  is_tv_show <- lift (invert is_movie) ;;
  setitem clean_df "is_tv_show" is_tv_show ;;
  ret clean_df.

(** What [show_basic_stats] prints. *)
Record BasicStats := mkBasicStats {
  total_views : Z;
  date_range : Z * Z;
  active_days : Z;
  average_views_per_day : Q;
  movies : Z;
  tv_shows : Z;
  movies_percent : option Q;
  tv_shows_percent : option Q
}.

Definition show_basic_stats (df : ref) : M BasicStats :=
  total_views <- read df (fun d => Ok (Z.of_nat (len d))) ;;
  date <- getitem df "date" ;;
  first <- lift (rbind (min_datetime date) strftime) ;;
  date <- getitem df "date" ;;
  last <- lift (rbind (max_datetime date) strftime) ;;
  date <- getitem df "date" ;;
  active_days <- lift (nunique_dates date) ;;
  average <- lift (truediv total_views active_days) ;;
  is_movie <- getitem df "is_movie" ;;
  movies <- lift (sum_bool is_movie) ;;
  is_tv_show <- getitem df "is_tv_show" ;;
  tv_shows <- lift (sum_bool is_tv_show) ;;
  ret (mkBasicStats total_views (first, last) active_days average
         movies tv_shows
         (percent movies total_views) (percent tv_shows total_views)).

Definition binge_threshold : Z := Timedelta_hours 6.

Definition binge_analysis `{Platform} (df : ref) : M ref :=
  sorted <- derive df (sort_frame "date") ;;
  df_sorted <- copy sorted ;;
  date <- getitem df_sorted "date" ;;
  time_diff <- lift (diff date) ;;
  setitem df_sorted "time_diff" time_diff ;;
  time_diff <- getitem df_sorted "time_diff" ;;
  new_session <- lift (gt_timedelta binge_threshold time_diff) ;;
  setitem df_sorted "new_session" new_session ;;
  new_session <- getitem df_sorted "new_session" ;;
  session_id <- lift (cumsum new_session) ;;
  setitem df_sorted "session_id" session_id ;;
  session_stats <- derive df_sorted (groupby_agg "session_id" "title" "date") ;;
  set_columns session_stats ["views_count"; "session_start"; "session_end"] ;;
  session_end <- getitem session_stats "session_end" ;;
  session_start <- getitem session_stats "session_start" ;;
  elapsed <- lift (sub_datetime session_end session_start) ;;
  seconds <- lift (total_seconds elapsed) ;;
  hours <- lift (div_float 3600 seconds) ;;
  setitem session_stats "duration_hours" hours ;;
  views_count <- getitem session_stats "views_count" ;;
  mask <- lift (gt_int 1 views_count) ;;
  binge_sessions <- derive session_stats (filter_rows mask) ;;
  ret binge_sessions.

(** [main], from the loaded table on.  [load_data] gives [None] when it
    finds no file.  [find_top_titles], [create_visualizations] and
    [viewing_timeline] only present the cleaned frame and are left out. *)
Definition main `{Platform} (loaded : option DataFrame)
  : M (option (BasicStats * ref)) :=
  match loaded with
  | None => ret None
  | Some table =>
      df <- alloc table ;;
      cleaned_df <- clean_data df ;;
      stats <- show_basic_stats cleaned_df ;;
      binge_sessions <- binge_analysis cleaned_df ;;
      ret (Some (stats, binge_sessions))
  end.

(** ** Two installations

    Both satisfy the contract of [Platform].  They read dates in the form
    [YYYY-MM-DD], optionally followed by [HH:MM] or [HH:MM:SS], and differ
    in the order in which their sorts leave equal keys. *)

Definition key_leb (a b : option Z) : bool :=
  match a, b with
  | Some x, Some y => x <=? y
  | _, None => true
  | None, Some _ => false
  end.

Definition key_ltb (a b : option Z) : bool := negb (key_leb b a).

Section InsertionSort.
Variable before : option Z -> option Z -> bool.
Variable ks : list (option Z).

Fixpoint insert_position (i : nat) (l : list nat) : list nat :=
  match l with
  | [] => [i]
  | j :: t =>
      if before (nth i ks None) (nth j ks None)
      then i :: l
      else j :: insert_position i t
  end.

Definition insertion_argsort : list nat :=
  fold_right insert_position [] (seq 0 (length ks)).
End InsertionSort.

(** Equal keys stay in input order. *)
Definition stable_argsort := insertion_argsort key_leb.
(** Equal keys end in reverse input order. *)
Definition reversing_argsort := insertion_argsort key_ltb.

Definition days_from_civil (y m d : Z) : Z :=
  let y := if m <=? 2 then y - 1 else y in
  let era := y / 400 in
  let yoe := y - era * 400 in
  let doy := (153 * (if 2 <? m then m - 3 else m + 9) + 2) / 5 + d - 1 in
  let doe := yoe * 365 + yoe / 4 - yoe / 100 + doy in
  era * 146097 + doe - 719468.

Fixpoint decimal_from (acc : Z) (s : str) : option Z :=
  match s with
  | [] => Some acc
  | c :: s' =>
      if is_ascii_digit c
      then decimal_from (10 * acc + Z.of_N (c - 0x30)) s'
      else None
  end.

Definition decimal (s : str) : option Z :=
  match s with
  | [] => None
  | _ => decimal_from 0 s
  end.

(** The fields of a text between the separators [-], space and [:]. *)
Fixpoint fields (cur : str) (s : str) : list str :=
  match s with
  | [] => [rev cur]
  | c :: s' =>
      if (N.eqb c 0x2D || N.eqb c 0x20 || N.eqb c 0x3A)%bool
      then rev cur :: fields [] s'
      else fields (c :: cur) s'
  end.

Definition timestamp (y m d hh mm ss : Z) : option (option Z) :=
  if ((1 <=? m) && (m <=? 12) && (1 <=? d) && (d <=? 31) &&
      (hh <? 24) && (mm <? 60) && (ss <? 60))%bool
  then Some (Some (days_from_civil y m d * ns_per_day
                   + ((hh * 60 + mm) * 60 + ss) * ns_per_second))
  else None.

Definition iso_strptime (_ : list (option str)) (s : str) : option (option Z) :=
  match s with
  | [] => Some None
  | _ =>
      match map decimal (fields [] s) with
      | [Some y; Some m; Some d] => timestamp y m d 0 0 0
      | [Some y; Some m; Some d; Some hh; Some mm] => timestamp y m d hh mm 0
      | [Some y; Some m; Some d; Some hh; Some mm; Some ss] => timestamp y m d hh mm ss
      | _ => None
      end
  end.

(** The two sorts meet the contract. *)

Lemma key_leb_le a b : key_leb a b = true -> na_last_le a b.
Proof. destruct a, b; simpl; try discriminate; auto. apply Z.leb_le. Qed.

Lemma key_leb_total a b : key_leb a b = false -> na_last_le b a.
Proof.
  destruct a, b; simpl; try discriminate; auto.
  intros Hf. apply Z.leb_gt in Hf. lia.
Qed.

Lemma key_ltb_le a b : key_ltb a b = true -> na_last_le a b.
Proof.
  unfold key_ltb. intros Hlt. apply key_leb_total. now apply negb_true_iff.
Qed.

Lemma key_ltb_total a b : key_ltb a b = false -> na_last_le b a.
Proof.
  unfold key_ltb. intros Hlt. apply key_leb_le. now apply negb_false_iff.
Qed.

Lemma take_seq {A} (d : A) (l : list A) : take d (seq 0 (length l)) l = l.
Proof.
  unfold take. induction l as [|x l IH]; simpl; [reflexivity|].
  f_equal. rewrite <- seq_shift, map_map. exact IH.
Qed.

Lemma take_length {A} (d : A) ix (l : list A) : length (take d ix l) = length ix.
Proof. apply length_map. Qed.

(** Cells taken at a permutation of the positions are a permutation of the
    cells. *)
Lemma take_Permutation {A} (d : A) (ix : list nat) (l : list A) :
  Permutation ix (seq 0 (length l)) -> Permutation (take d ix l) l.
Proof.
  intros Hp. rewrite <- (take_seq d l) at 2. unfold take. now apply Permutation_map.
Qed.

Section InsertionSortProperties.
Variable before : option Z -> option Z -> bool.
Variable ks : list (option Z).
Hypothesis before_le : forall a b, before a b = true -> na_last_le a b.
Hypothesis before_total : forall a b, before a b = false -> na_last_le b a.

Let key (i : nat) : option Z := nth i ks None.

Lemma insert_position_Permutation i l :
  Permutation (insert_position before ks i l) (i :: l).
Proof.
  induction l as [|j l IH]; simpl; [reflexivity|].
  destruct (before _ _); [reflexivity|].
  rewrite IH. apply perm_swap.
Qed.

Lemma insert_position_HdRel a i l :
  na_last_le (key a) (key i) ->
  HdRel na_last_le (key a) (map key l) ->
  HdRel na_last_le (key a) (map key (insert_position before ks i l)).
Proof.
  intros Hai Hl. destruct l as [|j l]; simpl.
  - now constructor.
  - destruct (before _ _); simpl; constructor; [assumption|].
    now inversion Hl.
Qed.

Lemma insert_position_Sorted i l :
  Sorted na_last_le (map key l) ->
  Sorted na_last_le (map key (insert_position before ks i l)).
Proof.
  induction l as [|j l IH]; simpl; intros Hs.
  - repeat constructor.
  - destruct (before (nth i ks None) (nth j ks None)) eqn:E; simpl.
    + constructor; [assumption|]. constructor. now apply before_le.
    + inversion Hs as [|? ? Hs' Hhd]; subst.
      constructor; [now apply IH|].
      apply insert_position_HdRel; [now apply before_total | assumption].
Qed.

Lemma insertion_argsort_Permutation :
  Permutation (insertion_argsort before ks) (seq 0 (length ks)).
Proof.
  unfold insertion_argsort. induction (seq 0 (length ks)) as [|i l IH]; simpl.
  - reflexivity.
  - rewrite insert_position_Permutation. now constructor.
Qed.

Lemma insertion_argsort_Sorted :
  Sorted na_last_le (take None (insertion_argsort before ks) ks).
Proof.
  unfold insertion_argsort, take. induction (seq 0 (length ks)) as [|i l IH]; simpl.
  - constructor.
  - now apply insert_position_Sorted.
Qed.
End InsertionSortProperties.

(** An installation whose sort keeps equal keys in input order. *)
Definition stable_platform : Platform := {|
  strptime := iso_strptime;
  argsort := stable_argsort;
  argsort_perm := insertion_argsort_Permutation key_leb;
  argsort_sorted ks := insertion_argsort_Sorted key_leb ks key_leb_le key_leb_total
|}.

(** An installation whose sort reverses equal keys. *)
Definition reversing_platform : Platform := {|
  strptime := iso_strptime;
  argsort := reversing_argsort;
  argsort_perm := insertion_argsort_Permutation key_ltb;
  argsort_sorted ks := insertion_argsort_Sorted key_ltb ks key_ltb_le key_ltb_total
|}.

(** ** Sample tables *)

Definition text (cells : list string) : column :=
  Text (map (fun s => Some (of_string s)) cells).

(** Three views, not in time order: two on one morning, two hours apart,
    and one the evening after. *)
Definition sample_history : DataFrame :=
  mkDataFrame [0; 1; 2]
    [ ("Title", text ["Stranger Things: S1E1"; "Inception (2010)";
                      "Stranger Things: S1E2"]);
      ("Date", text ["2024-01-02 20:00"; "2024-01-01 10:00"; "2024-01-01 12:00"]) ].

(** A single view. *)
Definition one_view : DataFrame :=
  mkDataFrame [0]
    [ ("Title", text ["Inception (2010)"]);
      ("Date", text ["2024-01-01 10:00"]) ].

(** A table with its header and no row. *)
Definition header_only : DataFrame :=
  mkDataFrame [] [ ("Title", Text []); ("Date", Text []) ].

(** A table whose second and third dates are no dates. *)
Definition garbled_dates : list string := ["2024-01-01 10:00"; "yesterday"; "soon"].

Definition garbled_history : DataFrame :=
  mkDataFrame [0; 1; 2]
    [ ("Title", text ["Inception (2010)"; "Dark: S1E1"; "Dark: S1E2"]);
      ("Date", text garbled_dates) ].

(** A title with a year in Arabic-Indic digits between parentheses. *)
Definition arabic_year_title : str := [0x28; 0x662; 0x660; 0x661; 0x660; 0x29]%N.

Definition arabic_year_view : DataFrame :=
  mkDataFrame [0]
    [ ("Title", Text [Some arabic_year_title]);
      ("Date", text ["2024-01-01 10:00"]) ].

(** The frame [clean_data] returns for a table, on the stable installation;
    the table itself if it raises. *)
Definition cleaned (table : DataFrame) : DataFrame :=
  match @clean_data stable_platform 0%nat [table] with
  | (Ok c, st) => nth c st table
  | (Err _, _) => table
  end.

Definition cleaned_history : DataFrame := Eval vm_compute in cleaned sample_history.
Definition cleaned_one_view : DataFrame := Eval vm_compute in cleaned one_view.
Definition cleaned_header_only : DataFrame := Eval vm_compute in cleaned header_only.

(** The timestamps of [cleaned_history], in input order. *)
Definition history_dates : list (option Z) :=
  [Some 1704225600000000000; Some 1704103200000000000; Some 1704110400000000000].


(** * The rest of the script *)

(** ** Loading *)

(** The working directory, as far as [load_data] looks at it: for a file
    name, [None] when [os.path.exists] is false, else what [pd.read_csv]
    returns or raises for it. *)
Definition directory := string -> option (result DataFrame).

Definition possible_files : list string :=
  [ "NetflixViewingHistory.csv";
    "netflix-viewing-history.csv";
    "sample_data.csv";
    "viewing-history.csv" ].

(** The loop of [load_data] over the names still to try: the first file
    that exists is read and returned. *)
Fixpoint load_first (dir : directory) (files : list string)
  : result (option DataFrame) :=
  match files with
  | [] => Ok None
  | file :: files' =>
      match dir file with
      | Some read => rmap Some read
      | None => load_first dir files'
      end
  end.

Definition load_data (dir : directory) : result (option DataFrame) :=
  load_first dir possible_files.

(** [main], from the working directory on. *)
Definition main_in `{Platform} (dir : directory) : M (option (BasicStats * ref)) :=
  loaded <- lift (load_data dir) ;;
  main loaded.

(** ** Counting values *)

Definition str_eqb (a b : str) : bool :=
  if list_eq_dec N.eq_dec a b then true else false.

Section Counting.
Context {A : Type}.
Variable eqb : A -> A -> bool.

(** The distinct values, in order of first appearance. *)
Fixpoint uniques (xs : list A) : list A :=
  match xs with
  | [] => []
  | x :: xs' => x :: filter (fun y => negb (eqb x y)) (uniques xs')
  end.

Definition occurrences (x : A) (xs : list A) : Z :=
  Z.of_nat (length (filter (eqb x) xs)).
End Counting.

(** The rows of [l] at the positions [order]. *)
Definition pick_rows {A} (order : list nat) (l : list A) : list A :=
  flat_map (fun i => match nth_error l i with
                     | Some x => [x]
                     | None => []
                     end) order.

(** The positions of the keys in descending order, as [sort_values] with
    [ascending=False] finds them: the default sort runs on the reversed
    keys, and its result is read backwards. *)
Definition desc_argsort `{Platform} (ks : list (option Z)) : list nat :=
  rev (map (fun j => (length ks - 1 - j)%nat) (argsort (rev ks))).

(** [series.value_counts()] on the cells that are not missing: each
    distinct value with the number of its occurrences, the most frequent
    first. *)
Definition value_counts `{Platform} {A} (eqb : A -> A -> bool) (xs : list A)
  : list (A * Z) :=
  let values := uniques eqb xs in
  let counts := map (fun v => occurrences eqb v xs) values in
  pick_rows (desc_argsort (map Some counts)) (combine values counts).

(** [series.head(n)]: the first [n] rows; for a negative [n], all rows but
    the last [-n]. *)
Definition head {A} (n : Z) (l : list A) : list A :=
  if 0 <=? n
  then firstn (Z.to_nat n) l
  else firstn (length l - Z.to_nat (- n)) l.

(** [df['title'].value_counts().head(top_n)] *)
Definition top_titles `{Platform} (top_n : Z) (title : column)
  : result (list (str * Z)) :=
  match title with
  | Text xs => Ok (head top_n (value_counts str_eqb (somes xs)))
  | _ => Err Unsupported
  end.

(** [find_top_titles]: the ranking it prints and returns. *)
Definition find_top_titles `{Platform} (df : ref) (top_n : Z)
  : M (list (str * Z)) :=
  title <- getitem df "title" ;;
  lift (top_titles top_n title).

(** ** The series the charts are drawn from *)

(** The label of a bar of the first chart of [create_visualizations]:
    [title[:30] + '...' if len(title) > 30 else title]. *)
Definition bar_label (title : str) : str :=
  if (30 <? length title)%nat
  then firstn 30 title ++ of_string "..."
  else title.

(** The month of a timestamp, as [dt.to_period('M')] numbers it: months
    since January 1970. *)
Definition month_period (t : Z) : Z :=
  (year_of t - 1970) * 12 + (month_of t - 1).

(** [df.groupby(df['date'].dt.to_period('M')).size()]: each month with a
    record, in ascending order, with the number of its records. *)
Definition monthly_views (date : column) : result (list (Z * Z)) :=
  match date with
  | Datetime ts =>
      Ok (map (fun g => (fst g, Z.of_nat (length (snd g))))
            (groupby_indices (map (option_map month_period) ts)))
  | _ => Err TypeError
  end.

(** [viewing_timeline], up to the series it plots. *)
Definition viewing_timeline (df : ref) : M (list (Z * Z)) :=
  date <- getitem df "date" ;;
  lift (monthly_views date).

(** ** Vocabulary of the further properties *)

(** The sum of a function over a list. *)
Definition total {A} (f : A -> Z) (l : list A) : Z :=
  fold_right (fun x acc => f x + acc) 0 l.

(** The test of the filter of [binge_analysis]: [views_count > 1]. *)
Definition more_than_one (x : option Z) : bool :=
  match x with
  | Some v => 1 <? v
  | None => false
  end.

(** The number of cells of a column that are not missing. *)
Definition present (c : column) : Z :=
  Z.of_nat (length (filter (fun b : bool => b) (notna c))).

(** A statement that leaves the store as it finds it. *)
Definition read_only {A} (m : M A) : Prop := forall s, snd (m s) = s.

(** The number of [True] cells. *)
Definition count_true (bs : list bool) : Z :=
  Z.of_nat (length (filter (fun b : bool => b) bs)).

(** What the loop over [column_mapping] makes of one label. *)
Definition canonical_label (l : string) : string :=
  fold_left (fun l '(old_col, new_col) => if String.eqb l old_col then new_col else l)
    column_mapping l.

(** The labels [clean_data] may append: those it sets, [date] apart, which
    it reads first. *)
Definition feature_labels : list string :=
  ["year"; "month"; "day_of_week"; "hour"; "is_movie"; "is_tv_show"].

Definition absent_from (l : list string) (k : string) : bool :=
  negb (existsb (String.eqb k) l).

(** Every column labelled [k] of the frame is the column [c], and there is
    one. *)
Definition settled (k : string) (c : column) (df : DataFrame) : Prop :=
  has_column k df = true /\
  forall p, In p (columns df) -> labelled k p = true -> p = (k, c).

(** ** Further sample tables *)

(** A view without a date, and one without a title. *)
Definition undated_view : DataFrame :=
  mkDataFrame [0] [ ("Title", text ["Inception (2010)"]) ].

Definition untitled_view : DataFrame :=
  mkDataFrame [0] [ ("Date", text ["2024-01-01 10:00"]) ].

(** A view under both spellings of each column. *)
Definition doubled_view : DataFrame :=
  mkDataFrame [0]
    [ ("Title", text ["Inception (2010)"]); ("Date", text ["2024-01-01 10:00"]);
      ("title", text ["Inception (2010)"]); ("date", text ["2024-01-01 10:00"]) ].

Definition doubled_titles : DataFrame :=
  mkDataFrame [0]
    [ ("Title", text ["Inception (2010)"]); ("Date", text ["2024-01-01 10:00"]);
      ("title", text ["Inception (2010)"]) ].

(** A directory that holds the sample history under the third name
    [load_data] tries, and nothing else. *)
Definition sample_directory : directory :=
  fun file =>
    if String.eqb file "sample_data.csv" then Some (Ok sample_history) else None.

(** The titles of [sample_history], in input order. *)
Definition history_titles : list (option str) :=
  map (fun s => Some (of_string s))
    ["Stranger Things: S1E1"; "Inception (2010)"; "Stranger Things: S1E2"].

(** * Vocabulary of the properties *)

Definition labels (df : DataFrame) : list string := map fst (columns df).

(** What the loop over [column_mapping] makes of the copy. *)
Definition standardize (df : DataFrame) : DataFrame :=
  fold_left (fun d '(old_col, new_col) =>
               if has_column old_col d then rename old_col new_col d else d)
    column_mapping df.

(** [clean_df] once every column is set: [x] is the copy with its columns
    renamed, [ts] the parsed dates, [titles] the title cells. *)
Definition is_movie_flags (titles : list (option str)) : list bool :=
  map (fun x => match x with
                | Some s => re_search year_pattern s
                | None => false
                end) titles.

Definition normalized (x : DataFrame) (ts : list (option Z))
    (titles : list (option str)) : DataFrame :=
  set_column "is_tv_show" (Boolean (map negb (is_movie_flags titles)))
    (set_column "is_movie" (Boolean (is_movie_flags titles))
       (set_column "hour" (Int64 (map (option_map hour_of) ts))
          (set_column "day_of_week" (Text (map (option_map day_name_of) ts))
             (set_column "month" (Int64 (map (option_map month_of) ts))
                (set_column "year" (Int64 (map (option_map year_of) ts))
                   (set_column "date" (Datetime ts) x)))))).

(** ** The segmentation, read as functions of the sorted dates *)

Definition exceeds (d : option Z) : bool :=
  match d with
  | Some d => binge_threshold <? d
  | None => false
  end.

Definition time_diffs (dates : list (option Z)) : list (option Z) :=
  diff_from None dates.

Definition new_sessions (dates : list (option Z)) : list bool :=
  map exceeds (time_diffs dates).

Definition session_ids (dates : list (option Z)) : list Z :=
  cumsum_from 0 (new_sessions dates).

(** [df_sorted] once its three columns are set. *)
Definition annotated (sorted : DataFrame) (dates : list (option Z)) : DataFrame :=
  set_column "session_id" (Int64 (map Some (session_ids dates)))
    (set_column "new_session" (Boolean (new_sessions dates))
       (set_column "time_diff" (Timedelta (time_diffs dates)) sorted)).

(** Elapsed hours between session start and end. *)
Definition hours (d : Z) : Q :=
  Qred (Qred (Qmake d 1 / inject_Z ns_per_second) / inject_Z 3600).

Definition elapsed_hours (ends starts : list (option Z)) : list (option Q) :=
  map (option_map (fun q => Qred (q / inject_Z 3600)))
    (map (option_map (fun d => Qred (Qmake d 1 / inject_Z ns_per_second)))
       (map (fun p => osub (fst p) (snd p)) (combine ends starts))).

(** [session_stats] once its columns are named and the duration is set. *)
Definition session_table (groups : list (Z * list nat)) (titles : column)
    (dates : list (option Z)) : DataFrame :=
  let starts := map (fun g => omin (take None (snd g) dates)) groups in
  let ends := map (fun g => omax (take None (snd g) dates)) groups in
  mkDataFrame (map fst groups)
    [ ("views_count", Int64 (map (fun g => Some (agg_count titles (snd g))) groups));
      ("session_start", Datetime starts);
      ("session_end", Datetime ends);
      ("duration_hours", Float (elapsed_hours ends starts)) ].

(** The rows of a session table with more than one view. *)
Definition more_than_one_view (stats : DataFrame) : list bool :=
  match get_column "views_count" stats with
  | Ok (Int64 counts) =>
      map (fun x => match x with Some v => 1 <? v | None => false end) counts
  | _ => []
  end.

Definition binge_only (stats : DataFrame) : DataFrame :=
  mkDataFrame (select (more_than_one_view stats) (index stats))
    (map (fun p => (fst p, select_column (more_than_one_view stats) (snd p)))
       (columns stats)).

(** ** The normalizer *)

(** The text contains [(], four characters of the class [digit], and [)],
    one after the other. *)
Definition paren_year (digit : N -> bool) (t : str) : Prop :=
  exists pre d1 d2 d3 d4 post,
    t = pre ++ [0x28%N; d1; d2; d3; d4; 0x29%N] ++ post /\
    digit d1 = true /\ digit d2 = true /\ digit d3 = true /\ digit d4 = true.

(** The labels of the columns [clean_data] sets. *)
Definition derived_labels : list string :=
  ["date"; "year"; "month"; "day_of_week"; "hour"; "is_movie"; "is_tv_show"].

(** The position of the first cell that does not parse. *)
Fixpoint first_unparseable (p : str -> option (option Z))
    (cells : list (option str)) : option nat :=
  match cells with
  | [] => None
  | None :: cells' => option_map S (first_unparseable p cells')
  | Some d :: cells' =>
      match p d with
      | None => Some 0%nat
      | Some _ => option_map S (first_unparseable p cells')
      end
  end.

(** A cell and the timestamp it was parsed to. *)
Definition parsed_as (p : str -> option (option Z))
    (cell : option str) (t : option Z) : Prop :=
  match cell with
  | Some d => p d = Some t
  | None => t = None
  end.

(** The labels are pairwise distinct. *)
Fixpoint distinct (l : list string) : bool :=
  match l with
  | [] => true
  | x :: l' => negb (existsb (String.eqb x) l') && distinct l'
  end.

(** The order [order] of the positions of the keys [ks] keeps equal keys in
    input order. *)
Definition keeps_ties_in_input_order (ks : list (option Z)) (order : list nat) : Prop :=
  forall i j a b,
    (i < j)%nat ->
    nth_error order i = Some a -> nth_error order j = Some b ->
    nth a ks None = nth b ks None -> (a < b)%nat.

(** The cells of [xs] in the rows whose key is [k]. *)
Definition rows_of {A} (k : Z) (xs : list A) (ks : list (option Z)) : list A :=
  map fst (filter (fun p => has_key k (snd p)) (combine xs ks)).

(** ** Two runs of one function

    A run from a store [base] that holds the argument [table] at [input] is
    compared with the run from the store that holds nothing but [table]. *)

(** An object created during the run, as each of the two runs refers to it. *)
Inductive new_object (base : store) : ref -> ref -> Prop :=
| new_object_at k : new_object base (length base + k) (S k).

Inductive same_object (base : store) (input : ref) : ref -> ref -> Prop :=
| same_input : same_object base input input 0
| same_new a b : new_object base a b -> same_object base input a b.

(** Both runs return related values, or raise the same exception, and have
    created the same objects [l]; the first has left [base] as it was. *)
Inductive same_outcome (base : store) (table : DataFrame) {A B} (R : A -> B -> Prop)
  : result A * store -> result B * store -> Prop :=
| same_ok a b l :
    R a b -> same_outcome base table R (Ok a, base ++ l) (Ok b, table :: l)
| same_err e l :
    same_outcome base table R (Err e, base ++ l) (Err e, table :: l).

Definition simulates (base : store) (table : DataFrame) {A B} (R : A -> B -> Prop)
    (m : M A) (m' : M B) : Prop :=
  forall l, same_outcome base table R (m (base ++ l)) (m' (table :: l)).

(** * Properties *)

(** ** The store *)

Lemma nth_error_new {A} (s l : list A) (k : nat) :
  nth_error (s ++ l) (length s + k) = nth_error l k.
Proof.
  rewrite nth_error_app2 by lia. f_equal. lia.
Qed.

Lemma update_new {A} (s l : list A) (k : nat) (x : A) :
  update (length s + k) x (s ++ l) = s ++ update k x l.
Proof.
  induction s as [|h s IH]; simpl.
  - reflexivity.
  - now rewrite IH.
Qed.

Lemma nth_error_update_same {A} (l : list A) (k : nat) (x y : A) :
  nth_error l k = Some y -> nth_error (update k x l) k = Some x.
Proof.
  revert k. induction l as [|h l IH]; intros [|k]; simpl; try discriminate; auto.
Qed.

Lemma nth_error_old {A} (s l : list A) (r : nat) (x : A) :
  nth_error s r = Some x -> nth_error (s ++ l) r = Some x.
Proof.
  intros Hr. rewrite nth_error_app1; [assumption|].
  apply nth_error_Some. congruence.
Qed.

(** ** Runs from different stores

    A run of a function of the script from a store [base] that holds the
    argument [table] at [input] is compared with its run from the store
    that holds nothing but [table].  The two runs create the same objects,
    return or raise alike, and the first touches nothing of [base]. *)
Section Relocation.
Local Open Scope nat_scope.
Variable base : store.
Variable input : ref.
Variable table : DataFrame.
Hypothesis input_bound : nth_error base input = Some table.

Local Abbreviation new_object := (new_object base).
Local Abbreviation same_object := (same_object base input).
Local Abbreviation same_outcome := (same_outcome base table).
Local Abbreviation simulates := (simulates base table).

Lemma sim_ret {A B} (R : A -> B -> Prop) a b :
  R a b -> simulates R (ret a) (ret b).
Proof. intros HR l. now constructor. Qed.

Lemma sim_lift {A} (r : result A) : simulates eq (lift r) (lift r).
Proof. intros l. unfold lift. destruct r; now constructor. Qed.

Lemma sim_bind {A A' B B'} (R : A -> A' -> Prop) (R' : B -> B' -> Prop)
    (m : M A) (m' : M A') (k : A -> M B) (k' : A' -> M B') :
  simulates R m m' ->
  (forall a a', R a a' -> simulates R' (k a) (k' a')) ->
  simulates R' (bind m k) (bind m' k').
Proof.
  intros Hm Hk l. unfold bind.
  destruct (Hm l) as [a a' l' HR | e l'].
  - apply Hk, HR.
  - constructor.
Qed.

Lemma sim_alloc df : simulates new_object (alloc df) (alloc df).
Proof.
  intros l. unfold alloc.
  rewrite <- app_assoc, length_app. simpl.
  change (table :: l ++ [df]) with (table :: (l ++ [df])).
  constructor. constructor.
Qed.

Lemma sim_read {A} a b (f : DataFrame -> result A) :
  same_object a b -> simulates eq (read a f) (read b f).
Proof.
  intros [| ? ? [k]] l; unfold read.
  - rewrite (nth_error_old _ _ _ _ input_bound). simpl.
    destruct (f table); now constructor.
  - rewrite nth_error_new. simpl.
    destruct (nth_error l k) as [df|]; [destruct (f df)|]; now constructor.
Qed.

Lemma sim_modify a b f :
  new_object a b -> simulates eq (modify a f) (modify b f).
Proof.
  intros [k] l; unfold modify.
  rewrite nth_error_new. simpl.
  destruct (nth_error l k) as [df|].
  - rewrite update_new. now constructor.
  - constructor.
Qed.

Lemma sim_for_each {A} (xs : list A) (body body' : A -> M unit) :
  (forall x, simulates eq (body x) (body' x)) ->
  simulates eq (for_each xs body) (for_each xs body').
Proof.
  intros Hbody. induction xs as [|x xs IH]; simpl.
  - now apply sim_ret.
  - eapply sim_bind; [apply Hbody | intros; apply IH].
Qed.
Lemma sim_getitem a b k :
  same_object a b -> simulates eq (getitem a k) (getitem b k).
Proof. apply sim_read. Qed.

Lemma sim_setitem a b k c :
  new_object a b -> simulates eq (setitem a k c) (setitem b k c).
Proof. apply sim_modify. Qed.

Lemma sim_rename_inplace a b old new :
  new_object a b ->
  simulates eq (rename_inplace a old new) (rename_inplace b old new).
Proof. apply sim_modify. Qed.

Lemma sim_derive a b f :
  same_object a b -> simulates new_object (derive a f) (derive b f).
Proof.
  intros Hab. unfold derive, load.
  eapply sim_bind; [apply sim_read, Hab | intros ? ? <-].
  eapply sim_bind; [apply sim_lift | intros ? ? <-].
  apply sim_alloc.
Qed.

Lemma sim_copy a b :
  same_object a b -> simulates new_object (copy a) (copy b).
Proof.
  intros Hab. unfold copy, load.
  eapply sim_bind; [apply sim_read, Hab | intros ? ? <-].
  apply sim_alloc.
Qed.

Lemma sim_set_columns a b labels :
  new_object a b ->
  simulates eq (set_columns a labels) (set_columns b labels).
Proof.
  intros Hab. unfold set_columns, load.
  eapply sim_bind; [apply sim_read, same_new, Hab | intros ? ? <-].
  eapply sim_bind; [apply sim_lift | intros ? ? <-].
  now apply sim_modify.
Qed.

(** One statement of a function body. *)
Ltac sim_statement :=
  first
    [ apply sim_lift
    | apply sim_getitem; first [assumption | apply same_new; assumption]
    | apply sim_setitem; assumption
    | apply sim_rename_inplace; assumption
    | apply sim_set_columns; assumption
    | apply sim_copy; first [assumption | apply same_new; assumption]
    | apply sim_derive; first [assumption | apply same_new; assumption]
    | apply sim_read; first [assumption | apply same_new; assumption]
    | apply sim_ret; first [assumption | reflexivity] ].

Ltac sim_body :=
  repeat (eapply sim_bind; [sim_statement | intros ? ? ?; subst]);
  try sim_statement.

Lemma sim_clean_data `{Platform} a b :
  same_object a b -> simulates new_object (clean_data a) (clean_data b).
Proof.
  intros Hab. unfold clean_data.
  eapply sim_bind; [sim_statement | intros ? ? ?].
  eapply sim_bind.
  { apply sim_for_each. intros [old_col new_col].
    eapply sim_bind; [sim_statement | intros present ? <-].
    destruct present; sim_statement. }
  intros ? ? _. sim_body.
Qed.

Lemma sim_show_basic_stats a b :
  same_object a b -> simulates eq (show_basic_stats a) (show_basic_stats b).
Proof. intros Hab. unfold show_basic_stats. sim_body. Qed.

Lemma sim_binge_analysis `{Platform} a b :
  same_object a b -> simulates new_object (binge_analysis a) (binge_analysis b).
Proof. intros Hab. unfold binge_analysis. sim_body. Qed.
End Relocation.

(** What relates two runs at the empty extension. *)
Lemma simulates_run {A B} (R : A -> B -> Prop) base table (m : M A) (m' : M B) :
  simulates base table R m m' ->
  exists l,
    (exists a b, R a b /\ m base = (Ok a, base ++ l) /\ m' [table] = (Ok b, table :: l))
    \/ (exists e, m base = (Err e, base ++ l) /\ m' [table] = (Err e, table :: l)).
Proof.
  intros Hsim. specialize (Hsim []). rewrite app_nil_r in Hsim.
  inversion Hsim as [a b l HR Hm Hm' | e l Hm Hm']; exists l; [left | right].
  - exists a, b. auto.
  - exists e. auto.
Qed.

(** ** Labels and columns *)

Lemma labelled_spec k p : labelled k p = true <-> fst p = k.
Proof. unfold labelled. apply String.eqb_eq. Qed.

Lemma has_column_In k df : has_column k df = true <-> In k (labels df).
Proof.
  unfold has_column, labels. rewrite existsb_exists, in_map_iff.
  split; intros [p [H1 H2]]; exists p.
  - apply labelled_spec in H2. auto.
  - split; [assumption | now apply labelled_spec].
Qed.

Lemma filter_labelled_absent k cols :
  ~ In k (map fst cols) -> filter (labelled k) cols = [].
Proof.
  induction cols as [|p cols IH]; simpl; intros Hn; [reflexivity|].
  destruct (labelled k p) eqn:E.
  - apply labelled_spec in E. tauto.
  - apply IH. tauto.
Qed.

Lemma filter_labelled_NoDup k cols :
  NoDup (map fst cols) -> In k (map fst cols) ->
  exists c, filter (labelled k) cols = [(k, c)] /\ In (k, c) cols.
Proof.
  induction cols as [|[k' c'] cols IH]; simpl; intros Hnd Hin; [contradiction|].
  inversion Hnd as [|? ? Hk' Hnd']; subst.
  unfold labelled at 1; simpl. destruct (String.eqb_spec k' k) as [->|Hne].
  - exists c'. rewrite filter_labelled_absent by assumption. auto.
  - destruct Hin as [?|Hin]; [contradiction|].
    destruct (IH Hnd' Hin) as [c [Hf Hc]]. exists c. auto.
Qed.

Lemma get_column_In k c df : get_column k df = Ok c -> In (k, c) (columns df).
Proof.
  unfold get_column. destruct (filter (labelled k) (columns df)) as [|[k' c'] [|? ?]] eqn:E;
    try discriminate.
  intros [= ->].
  assert (Hin : In (k', c) (filter (labelled k) (columns df))) by (rewrite E; now left).
  apply filter_In in Hin. destruct Hin as [Hin Hk]. apply labelled_spec in Hk.
  simpl in Hk. now subst.
Qed.

Lemma get_column_NoDup k df :
  NoDup (labels df) -> In k (labels df) ->
  exists c, get_column k df = Ok c.
Proof.
  intros Hnd Hin. destruct (filter_labelled_NoDup k _ Hnd Hin) as [c [Hf _]].
  exists c. unfold get_column. now rewrite Hf.
Qed.

Lemma get_column_has k c df : get_column k df = Ok c -> has_column k df = true.
Proof.
  intros Hget. apply has_column_In. unfold labels.
  apply get_column_In in Hget. apply (in_map fst) in Hget. exact Hget.
Qed.

Lemma labels_set_column k c df :
  labels (set_column k c df) =
  if has_column k df then labels df else labels df ++ [k].
Proof.
  unfold labels, set_column. simpl. destruct (has_column k df).
  - rewrite map_map. apply map_ext_in. intros p _.
    destruct (labelled k p) eqn:E; [|reflexivity].
    apply labelled_spec in E. now rewrite E.
  - now rewrite map_app.
Qed.

Lemma NoDup_labels_set_column k c df :
  NoDup (labels df) -> NoDup (labels (set_column k c df)).
Proof.
  intros Hnd. rewrite labels_set_column. destruct (has_column k df) eqn:E; [assumption|].
  apply NoDup_app; [assumption | repeat constructor; inversion 1 | ].
  intros x Hx [<-|[]].
  apply has_column_In in Hx. congruence.
Qed.

Lemma In_set_column k c df p :
  In p (columns (set_column k c df)) -> fst p = k -> p = (k, c).
Proof.
  unfold set_column. simpl. destruct (has_column k df) eqn:E; intros Hin Hk.
  - apply in_map_iff in Hin. destruct Hin as [q [Hq _]].
    destruct (labelled k q) eqn:El; [congruence|].
    subst q. apply labelled_spec in Hk. congruence.
  - apply in_app_or in Hin. destruct Hin as [Hin|[<-|[]]]; [|reflexivity].
    assert (has_column k df = true); [|congruence].
    apply has_column_In. rewrite <- Hk. unfold labels. now apply in_map.
Qed.

(** A column read back is the column that was written. *)
Lemma get_set_same_inv k c c' df :
  get_column k (set_column k c df) = Ok c' -> c' = c.
Proof.
  intros Hget. apply get_column_In in Hget.
  apply In_set_column in Hget; [congruence | reflexivity].
Qed.

Lemma In_labels_set_column k c df : In k (labels (set_column k c df)).
Proof.
  rewrite labels_set_column. destruct (has_column k df) eqn:E.
  - now apply has_column_In.
  - apply in_or_app. right. now left.
Qed.

Lemma get_set_same k c df :
  NoDup (labels df) -> get_column k (set_column k c df) = Ok c.
Proof.
  intros Hnd.
  destruct (get_column_NoDup k (set_column k c df)) as [c' Hc'].
  - now apply NoDup_labels_set_column.
  - apply In_labels_set_column.
  - rewrite Hc'. f_equal. eapply get_set_same_inv, Hc'.
Qed.

Lemma get_set_other k k' c df :
  k <> k' -> get_column k (set_column k' c df) = get_column k df.
Proof.
  intros Hne. unfold get_column.
  assert (Hf : filter (labelled k) (columns (set_column k' c df))
               = filter (labelled k) (columns df)); [|now rewrite Hf].
  unfold set_column. simpl. destruct (has_column k' df).
  - induction (columns df) as [|p cols IH]; simpl; [reflexivity|].
    destruct (labelled k' p) eqn:E'.
    + apply labelled_spec in E'.
      assert (labelled k p = false) as ->.
      { destruct (labelled k p) eqn:E; [|reflexivity].
        apply labelled_spec in E. congruence. }
      unfold labelled at 1. simpl.
      destruct (String.eqb_spec k' k); [congruence | exact IH].
    + destruct (labelled k p); [now rewrite IH | exact IH].
  - rewrite filter_app. simpl. unfold labelled at 2. simpl.
    destruct (String.eqb_spec k' k); [congruence|]. now rewrite app_nil_r.
Qed.

Lemma labels_take_frame ix df : labels (take_frame ix df) = labels df.
Proof.
  unfold labels, take_frame. simpl. rewrite map_map. reflexivity.
Qed.

Lemma get_take_frame k ix df :
  get_column k (take_frame ix df) = rmap (take_column ix) (get_column k df).
Proof.
  unfold get_column, take_frame. simpl.
  assert (Hf : filter (labelled k) (map (fun p => (fst p, take_column ix (snd p))) (columns df))
               = map (fun p => (fst p, take_column ix (snd p))) (filter (labelled k) (columns df))).
  { induction (columns df) as [|p cols IH]; simpl; [reflexivity|].
    change (labelled k (fst p, take_column ix (snd p))) with (labelled k p).
    destruct (labelled k p); simpl; now rewrite IH. }
  rewrite Hf. destruct (filter (labelled k) (columns df)) as [|[k' c'] [|? ?]]; reflexivity.
Qed.

(** ** The renaming loop *)

Lemma update_same {A} (l : list A) (k : nat) (x : A) :
  nth_error l k = Some x -> update k x l = l.
Proof.
  revert k. induction l as [|h l IH]; intros [|k]; simpl; try discriminate.
  - now intros [= ->].
  - intros Hk. now rewrite IH.
Qed.

Lemma update_update {A} (l : list A) (k : nat) (x y : A) :
  update k y (update k x l) = update k y l.
Proof.
  revert k. induction l as [|h l IH]; intros [|k]; simpl; try reflexivity.
  now rewrite IH.
Qed.

Lemma rename_loop (mapping : list (string * string)) (c : ref) :
  forall (st : store) (x : DataFrame),
    nth_error st c = Some x ->
    for_each mapping (fun '(old_col, new_col) =>
      present <- read c (fun d => Ok (has_column old_col d)) ;;
      if present : bool then rename_inplace c old_col new_col else ret tt) st
    = (Ok tt,
       update c (fold_left (fun d '(old_col, new_col) =>
                   if has_column old_col d then rename old_col new_col d else d)
                   mapping x) st).
Proof.
  induction mapping as [|[old_col new_col] mapping IH]; intros st x Hx; simpl.
  - unfold ret. now rewrite update_same.
  - unfold bind at 1 2. unfold read at 1. rewrite Hx.
    destruct (has_column old_col x).
    + unfold rename_inplace, modify. rewrite Hx.
      rewrite (IH _ (rename old_col new_col x)).
      * now rewrite update_update.
      * eapply nth_error_update_same, Hx.
    + unfold ret at 1. now apply IH.
Qed.

Lemma index_standardize df : index (standardize df) = index df.
Proof.
  unfold standardize. generalize column_mapping. intros mapping. revert df.
  induction mapping as [|[o n] mapping IH]; intros df; simpl; [reflexivity|].
  rewrite IH. now destruct (has_column o df).
Qed.

Lemma sort_frame_datetime `{Platform} k df ks :
  get_column k df = Ok (Datetime ks) ->
  sort_frame k df = Ok (take_frame (argsort ks) df).
Proof. intros Hk. unfold sort_frame. now rewrite Hk. Qed.

Lemma get_annotated_other k sorted dates :
  k <> "time_diff" -> k <> "new_session" -> k <> "session_id" ->
  get_column k (annotated sorted dates) = get_column k sorted.
Proof.
  intros H1 H2 H3. unfold annotated. now rewrite !get_set_other.
Qed.

Lemma binge_analysis_alone `{Platform} table ks titles :
  NoDup (labels table) ->
  get_column "date" table = Ok (Datetime ks) ->
  get_column "title" table = Ok titles ->
  let order := argsort ks in
  let dates := take None order ks in
  let sorted := take_frame order table in
  let stats := session_table (groupby_indices (map Some (session_ids dates)))
                 (take_column order titles) dates in
  binge_analysis 0 [table]
  = (Ok 4%nat, [table; sorted; annotated sorted dates; stats; binge_only stats]).
Proof.
  intros Hnd Hdate Htitle order dates sorted stats.
  assert (Hnd1 : NoDup (labels sorted)) by (unfold sorted; now rewrite labels_take_frame).
  pose proof (NoDup_labels_set_column "time_diff" (Timedelta (time_diffs dates)) _ Hnd1) as Hnd2.
  pose proof (NoDup_labels_set_column "new_session" (Boolean (new_sessions dates)) _ Hnd2) as Hnd3.
  assert (Hdate' : get_column "date" sorted = Ok (Datetime dates)).
  { unfold sorted. now rewrite get_take_frame, Hdate. }
  assert (Htitle' : get_column "title" sorted = Ok (take_column order titles)).
  { unfold sorted. now rewrite get_take_frame, Htitle. }
  unfold binge_analysis, derive, copy, set_columns, getitem, setitem, load, read, modify, alloc, lift, ret, bind.
  cbn [nth_error update length app].
  rewrite (sort_frame_datetime _ _ _ Hdate). fold order sorted.
  cbn [nth_error update length app].
  rewrite Hdate'. cbn [diff].
  rewrite get_set_same by assumption. cbn [gt_timedelta].
  change (map _ (diff_from None dates)) with (new_sessions dates).
  change (diff_from None dates) with (time_diffs dates).
  rewrite get_set_same by assumption. cbn [cumsum].
  change (cumsum_from 0 (new_sessions dates)) with (session_ids dates).
  fold (annotated sorted dates).
  unfold groupby_agg.
  unfold annotated at 1. rewrite get_set_same by assumption. fold (annotated sorted dates).
  cbn [rbind].
  rewrite !get_annotated_other by discriminate.
  rewrite Htitle', Hdate'. cbn [rbind].
  cbn [nth_error update length app set_labels columns index map combine Nat.eqb].
  reflexivity.
Qed.

Lemma run_copy s r x :
  nth_error s r = Some x -> copy r s = (Ok (length s), s ++ [x]).
Proof. intros Hr. unfold copy, load, read, bind, alloc. now rewrite Hr. Qed.

Lemma to_datetime_Datetime `{Platform} c c' :
  to_datetime c = Ok c' -> exists ts, c' = Datetime ts.
Proof.
  destruct c; simpl; try discriminate.
  - destruct (parse_cells _ _ _); simpl; [|discriminate].
    intros [= <-]. eauto.
  - intros [= <-]. eauto.
Qed.

(** Reading a column is not affected by writes to columns with other labels. *)
Ltac skip_other_sets H :=
  repeat match type of H with
         | context [get_column ?k (set_column ?k' ?c ?d)] =>
             rewrite (get_set_other k k' c d) in H by (intro; discriminate)
         end.

Lemma clean_data_alone `{Platform} table c st :
  clean_data 0 [table] = (Ok c, st) ->
  exists date ts titles,
    get_column "date" (standardize table) = Ok date /\
    to_datetime date = Ok (Datetime ts) /\
    get_column "title" (standardize table) = Ok (Text titles) /\
    get_column "is_movie" (normalized (standardize table) ts titles)
    = Ok (Boolean (is_movie_flags titles)) /\
    c = 1%nat /\
    st = [table; normalized (standardize table) ts titles].
Proof.
  unfold clean_data. intros Hrun.
  unfold bind at 1 in Hrun. rewrite (run_copy [table] 0 table eq_refl) in Hrun.
  cbn [length app] in Hrun.
  unfold bind at 1 in Hrun.
  rewrite (rename_loop column_mapping 1 [table; table] table eq_refl) in Hrun.
  fold (standardize table) in Hrun.
  cbn [update] in Hrun.
  unfold getitem, setitem, read, modify, lift, ret, bind in Hrun.
  cbn [nth_error update] in Hrun.
  skip_other_sets Hrun.
  destruct (get_column "date" (standardize table)) as [date|] eqn:Edate; [|discriminate].
  destruct (to_datetime date) as [parsed|] eqn:Eparse; [|discriminate].
  destruct (to_datetime_Datetime _ _ Eparse) as [ts ->].
  destruct (get_column "date" (set_column "date" _ _)) as [date'|] eqn:Edate'; [|discriminate].
  pose proof (get_set_same_inv _ _ _ _ Edate'); subst date'.
  cbn [dt_year dt_field] in Hrun. skip_other_sets Hrun. rewrite Edate' in Hrun.
  cbn [dt_month dt_field] in Hrun. skip_other_sets Hrun. rewrite Edate' in Hrun.
  cbn [dt_day_name] in Hrun. skip_other_sets Hrun. rewrite Edate' in Hrun.
  cbn [dt_hour dt_field] in Hrun. skip_other_sets Hrun.
  destruct (get_column "title" (standardize table)) as [title|] eqn:Etitle; [|discriminate].
  destruct title as [titles| | | | |]; try discriminate.
  cbn [str_contains] in Hrun.
  destruct (get_column "is_movie" (set_column "is_movie" _ _)) as [flags|] eqn:Eflags;
    [|discriminate].
  pose proof (get_set_same_inv _ _ _ _ Eflags); subst flags.
  cbn [invert] in Hrun.
  injection Hrun as <- <-.
  exists date, ts, titles. repeat split; try assumption.
  unfold normalized. rewrite get_set_other by discriminate. exact Eflags.
Qed.

(** ** Session ids *)

Lemma diff_from_length prev xs : length (diff_from prev xs) = length xs.
Proof.
  revert prev. induction xs as [|x xs IH]; intros prev; simpl; [reflexivity|].
  now rewrite IH.
Qed.

Lemma cumsum_from_length acc bs : length (cumsum_from acc bs) = length bs.
Proof.
  revert acc. induction bs as [|b bs IH]; intros acc; simpl; [reflexivity|].
  now rewrite IH.
Qed.

Lemma session_ids_length dates : length (session_ids dates) = length dates.
Proof.
  unfold session_ids, new_sessions, time_diffs.
  now rewrite cumsum_from_length, length_map, diff_from_length.
Qed.

Lemma cumsum_from_lower acc bs : Forall (fun x => acc <= x) (cumsum_from acc bs).
Proof.
  revert acc. induction bs as [|b bs IH]; intros acc; simpl; constructor.
  - destruct b; lia.
  - eapply Forall_impl; [|apply IH]. simpl. intros x Hx. destruct b; lia.
Qed.

(** Session ids never decrease along the sorted records. *)
Lemma cumsum_from_sorted acc bs : StronglySorted Z.le (cumsum_from acc bs).
Proof.
  revert acc. induction bs as [|b bs IH]; intros acc; simpl; constructor.
  - apply IH.
  - apply cumsum_from_lower.
Qed.

Lemma session_ids_first d dates : nth_error (session_ids (d :: dates)) 0 = Some 0.
Proof.
  unfold session_ids, new_sessions, time_diffs. simpl.
  now destruct d.
Qed.

(** From one sorted record to the next, the session id goes up by one when
    the time between them exceeds the threshold, and stays otherwise. *)
Lemma session_ids_step_from prev acc dates i a b k :
  nth_error dates i = Some a ->
  nth_error dates (S i) = Some b ->
  nth_error (cumsum_from acc (map exceeds (diff_from prev dates))) i = Some k ->
  nth_error (cumsum_from acc (map exceeds (diff_from prev dates))) (S i)
  = Some (k + if exceeds (osub b a) then 1 else 0).
Proof.
  revert prev acc i. induction dates as [|x dates IH]; intros prev acc i.
  - destruct i; discriminate.
  - destruct i as [|i]; simpl.
    + intros [= ->]. destruct dates as [|y dates]; [discriminate|].
      simpl. now intros [= ->] [= <-].
    + apply IH.
Qed.

Lemma session_ids_step dates i a b k :
  nth_error dates i = Some a ->
  nth_error dates (S i) = Some b ->
  nth_error (session_ids dates) i = Some k ->
  nth_error (session_ids dates) (S i) = Some (k + if exceeds (osub b a) then 1 else 0).
Proof. apply session_ids_step_from. Qed.

(** ** Grouping *)

Lemma insert_key_Permutation k l : Permutation (insert_key k l) (k :: l).
Proof.
  induction l as [|h l IH]; simpl; [reflexivity|].
  destruct (k <=? h); [reflexivity|].
  rewrite IH. apply perm_swap.
Qed.

Lemma sort_keys_Permutation l : Permutation (sort_keys l) l.
Proof.
  induction l as [|k l IH]; simpl; [reflexivity|].
  rewrite insert_key_Permutation. now constructor.
Qed.

Lemma insert_key_sorted k l :
  StronglySorted Z.le l -> StronglySorted Z.le (insert_key k l).
Proof.
  induction l as [|h l IH]; simpl; intros Hs.
  - repeat constructor.
  - inversion Hs as [|? ? Hs' Hall]; subst.
    destruct (Z.leb_spec k h).
    + constructor; [assumption|]. constructor; [assumption|].
      eapply Forall_impl; [|exact Hall]. simpl. lia.
    + constructor; [now apply IH|].
      eapply Permutation_Forall; [symmetry; apply insert_key_Permutation|].
      constructor; [lia | assumption].
Qed.

Lemma sort_keys_sorted l : StronglySorted Z.le (sort_keys l).
Proof.
  induction l as [|k l IH]; simpl; [constructor | now apply insert_key_sorted].
Qed.

Lemma sorted_NoDup_strict l :
  StronglySorted Z.le l -> NoDup l -> StronglySorted Z.lt l.
Proof.
  induction 1 as [|x l Hs IH Hall]; intros Hnd; constructor.
  - apply IH. now inversion Hnd.
  - inversion Hnd as [|? ? Hx _]; subst.
    rewrite Forall_forall in *. intros y Hy.
    specialize (Hall y Hy). assert (x <> y) by (intros ->; contradiction). lia.
Qed.

Lemma somes_map_Some {A} (l : list A) : somes (map Some l) = l.
Proof.
  unfold somes. induction l as [|x l IH]; simpl; [reflexivity | now rewrite IH].
Qed.

(** The group keys of a column without missing keys: its distinct values in
    strictly ascending order. *)
Lemma group_keys_strict ids : StronglySorted Z.lt (group_keys (map Some ids)).
Proof.
  unfold group_keys. apply sorted_NoDup_strict.
  - apply sort_keys_sorted.
  - eapply Permutation_NoDup; [symmetry; apply sort_keys_Permutation|].
    apply NoDup_nodup.
Qed.

Lemma group_keys_In ids k : In k (group_keys (map Some ids)) <-> In k ids.
Proof.
  unfold group_keys. rewrite somes_map_Some. split; intros Hin.
  - eapply Permutation_in in Hin; [|apply sort_keys_Permutation].
    now apply nodup_In in Hin.
  - eapply Permutation_in; [symmetry; apply sort_keys_Permutation|].
    now apply nodup_In.
Qed.

Lemma positions_of_rows k ks : positions_of k ks = rows_of k (seq 0 (length ks)) ks.
Proof. reflexivity. Qed.

Lemma rows_of_above {A} k (xs : list A) ids :
  Forall (fun j => k < j) ids -> rows_of k xs (map Some ids) = [].
Proof.
  revert xs. induction ids as [|i ids IH]; intros xs Hall.
  - destruct xs; reflexivity.
  - destruct xs as [|x xs]; [reflexivity|].
    inversion Hall as [|? ? Hi Hall']; subst.
    unfold rows_of in *. simpl.
    destruct (Z.eqb_spec i k); [lia|]. now apply IH.
Qed.

(** With keys in ascending order, the rows of the least key come first and
    the rows of every other key are found among the rest. *)
Lemma rows_of_least {A} k : forall (xs : list A) ids,
  length xs = length ids ->
  StronglySorted Z.le ids ->
  Forall (fun j => k <= j) ids ->
  exists xs2 ids2,
    xs = rows_of k xs (map Some ids) ++ xs2 /\
    length xs2 = length ids2 /\
    StronglySorted Z.le ids2 /\
    Forall (fun j => k < j) ids2 /\
    (forall j, In j ids2 -> In j ids) /\
    (forall k', k < k' ->
       rows_of k' xs (map Some ids) = rows_of k' xs2 (map Some ids2)).
Proof.
  intros xs ids. revert xs.
  induction ids as [|i ids IH]; intros xs Hlen Hs Hall.
  - destruct xs; [|discriminate]. exists [], []. repeat split; auto; constructor.
  - destruct xs as [|x xs]; [discriminate|].
    inversion Hs as [|? ? Hs' Hi]; subst.
    inversion Hall as [|? ? Hki Hall']; subst.
    destruct (Z.eq_dec i k) as [->|Hne].
    + destruct (IH xs) as (xs2 & ids2 & Hxs & Hlen2 & Hs2 & Hall2 & Hin2 & Hother); auto.
      exists xs2, ids2. repeat split; auto.
      * unfold rows_of in *. simpl. rewrite Z.eqb_refl. simpl. now f_equal.
      * intros j Hj. right. auto.
      * intros k' Hk'. rewrite <- Hother by assumption.
        unfold rows_of. simpl. destruct (Z.eqb_spec k k'); [lia | reflexivity].
    + assert (Hall2 : Forall (fun j => k < j) (i :: ids)).
      { constructor; [lia|]. eapply Forall_impl; [|exact Hi]. simpl. lia. }
      exists (x :: xs), (i :: ids). repeat split; auto.
      now rewrite rows_of_above.
Qed.

(** Grouping rows by a key column that is in ascending order cuts the rows
    into consecutive runs: the groups, one after the other in key order,
    are the rows themselves. *)
Lemma groups_concat {A} keys : forall (xs : list A) ids,
  StronglySorted Z.lt keys ->
  StronglySorted Z.le ids ->
  (forall j, In j ids -> In j keys) ->
  length xs = length ids ->
  concat (map (fun k => rows_of k xs (map Some ids)) keys) = xs.
Proof.
  induction keys as [|k keys IH]; intros xs ids Hkeys Hs Hin Hlen.
  - destruct ids as [|i ids]; [|destruct (Hin i); now left].
    destruct xs; [reflexivity | discriminate].
  - inversion Hkeys as [|? ? Hkeys' Hk]; subst.
    rewrite Forall_forall in Hk.
    assert (Hall : Forall (fun j => k <= j) ids).
    { apply Forall_forall. intros j Hj. destruct (Hin j Hj) as [->|Hj']; [lia|].
      specialize (Hk j Hj'). lia. }
    destruct (rows_of_least k xs ids Hlen Hs Hall)
      as (xs2 & ids2 & Hxs & Hlen2 & Hs2 & Hall2 & Hin2 & Hother).
    simpl. transitivity (rows_of k xs (map Some ids) ++ xs2); [|now symmetry].
    f_equal.
    rewrite (map_ext_in _ (fun k' => rows_of k' xs2 (map Some ids2))).
    + apply IH; auto.
      intros j Hj. rewrite Forall_forall in Hall2. specialize (Hall2 j Hj).
      destruct (Hin j (Hin2 j Hj)) as [->|]; [lia | assumption].
    + intros k' Hk'. apply Hother. now apply Hk.
Qed.

(** The session groups partition the positions of the sorted records. *)
Lemma session_groups_partition dates :
  concat (map snd (groupby_indices (map Some (session_ids dates))))
  = seq 0 (length dates).
Proof.
  unfold groupby_indices. rewrite map_map. simpl.
  rewrite <- (session_ids_length dates).
  rewrite <- (groups_concat (group_keys (map Some (session_ids dates)))
                (seq 0 (length (session_ids dates))) (session_ids dates)).
  - f_equal. apply map_ext. intros k. rewrite positions_of_rows.
    now rewrite length_map.
  - apply group_keys_strict.
  - apply cumsum_from_sorted.
  - intros j. apply group_keys_In.
  - apply length_seq.
Qed.

(** ** Runs from any store *)

Lemma read_dangling {A} (f : DataFrame -> result A) s r :
  nth_error s r = None -> read r f s = (Err Dangling, s).
Proof. intros Hr. unfold read. now rewrite Hr. Qed.

(** A run of [clean_data] from a store that holds [table] at [df], against
    its run from the store of [table] alone. *)
Lemma clean_data_relocates `{Platform} s df table :
  nth_error s df = Some table ->
  exists l,
    (exists k, clean_data df s = (Ok (length s + k)%nat, s ++ l) /\
               clean_data 0 [table] = (Ok (S k), table :: l))
    \/ (exists e, clean_data df s = (Err e, s ++ l) /\
                  clean_data 0 [table] = (Err e, table :: l)).
Proof.
  intros Hdf.
  destruct (simulates_run _ _ _ _ _
              (sim_clean_data s df table Hdf df 0%nat (same_input s df)))
    as [l [(a & b & [k] & Ha & Hb) | (e & Ha & Hb)]]; exists l; eauto.
Qed.

Lemma binge_analysis_relocates `{Platform} s df table :
  nth_error s df = Some table ->
  exists l,
    (exists k, binge_analysis df s = (Ok (length s + k)%nat, s ++ l) /\
               binge_analysis 0 [table] = (Ok (S k), table :: l))
    \/ (exists e, binge_analysis df s = (Err e, s ++ l) /\
                  binge_analysis 0 [table] = (Err e, table :: l)).
Proof.
  intros Hdf.
  destruct (simulates_run _ _ _ _ _
              (sim_binge_analysis s df table Hdf df 0%nat (same_input s df)))
    as [l [(a & b & [k] & Ha & Hb) | (e & Ha & Hb)]]; exists l; eauto.
Qed.

Lemma show_basic_stats_relocates s df table :
  nth_error s df = Some table ->
  exists l,
    show_basic_stats df s = (fst (show_basic_stats 0 [table]), s ++ l) /\
    snd (show_basic_stats 0 [table]) = table :: l.
Proof.
  intros Hdf.
  destruct (simulates_run _ _ _ _ _
              (sim_show_basic_stats s df table Hdf df 0%nat (same_input s df)))
    as [l [(a & b & <- & Ha & Hb) | (e & Ha & Hb)]]; exists l;
    rewrite Ha, Hb; auto.
Qed.

Lemma clean_data_dangling `{Platform} s df :
  nth_error s df = None -> clean_data df s = (Err Dangling, s).
Proof.
  intros Hdf. unfold clean_data, copy, load. unfold bind at 1 2.
  now rewrite read_dangling.
Qed.

Lemma binge_analysis_dangling `{Platform} s df :
  nth_error s df = None -> binge_analysis df s = (Err Dangling, s).
Proof.
  intros Hdf. unfold binge_analysis, derive, load. unfold bind at 1 2.
  now rewrite read_dangling.
Qed.

(** The run of [binge_analysis] on a frame with distinct labels, a datetime
    column [date] and a column [title]: the four objects it creates. *)
Lemma binge_analysis_run `{Platform} s df table ks titles :
  nth_error s df = Some table ->
  NoDup (labels table) ->
  get_column "date" table = Ok (Datetime ks) ->
  get_column "title" table = Ok titles ->
  let order := argsort ks in
  let dates := take None order ks in
  let sorted := take_frame order table in
  let stats := session_table (groupby_indices (map Some (session_ids dates)))
                 (take_column order titles) dates in
  binge_analysis df s
  = (Ok (length s + 3)%nat,
     s ++ [sorted; annotated sorted dates; stats; binge_only stats]).
Proof.
  intros Hdf Hnd Hdate Htitle order dates sorted stats.
  pose proof (binge_analysis_alone table ks titles Hnd Hdate Htitle) as Halone.
  cbv zeta in Halone. fold order dates sorted stats in Halone.
  destruct (binge_analysis_relocates s df table Hdf)
    as [l [(k & Hrun & Hcanon) | (e & Hrun & Hcanon)]];
    rewrite Halone in Hcanon; [|discriminate].
  injection Hcanon as Hk Hl. subst l. rewrite Hrun. now inversion Hk.
Qed.

(** ** Frame and determinism *)

(** C10.  Neither [clean_data] nor [binge_analysis] mutates its input: a run
    of either from any store, whether it returns or raises, leaves every
    object of that store as it was and only adds objects; what it returns is
    one of the added objects.  So the caller's table is unchanged by
    [clean_data], which works on a copy, and the normalized record set is
    unchanged by [binge_analysis], whose columns [time_diff], [new_session]
    and [session_id] are set on a copy. *)
Theorem inputs_are_not_mutated `{Platform} (s : store) (df : ref) :
  (exists l, snd (clean_data df s) = s ++ l /\
     (forall r x, nth_error s r = Some x ->
                  nth_error (snd (clean_data df s)) r = Some x) /\
     (forall c, fst (clean_data df s) = Ok c -> (length s <= c)%nat)) /\
  (exists l, snd (binge_analysis df s) = s ++ l /\
     (forall r x, nth_error s r = Some x ->
                  nth_error (snd (binge_analysis df s)) r = Some x) /\
     (forall b, fst (binge_analysis df s) = Ok b -> (length s <= b)%nat)).
Proof.
  split.
  - destruct (nth_error s df) as [table|] eqn:Hdf.
    + destruct (clean_data_relocates s df table Hdf)
        as [l [(k & Hrun & _) | (e & Hrun & _)]];
        exists l; rewrite Hrun; simpl; repeat split;
        try (intros; now apply nth_error_old); try discriminate.
      intros c [= <-]. lia.
    + exists []. rewrite clean_data_dangling by assumption. simpl.
      rewrite app_nil_r. repeat split; auto; discriminate.
  - destruct (nth_error s df) as [table|] eqn:Hdf.
    + destruct (binge_analysis_relocates s df table Hdf)
        as [l [(k & Hrun & _) | (e & Hrun & _)]];
        exists l; rewrite Hrun; simpl; repeat split;
        try (intros; now apply nth_error_old); try discriminate.
      intros c [= <-]. lia.
    + exists []. rewrite binge_analysis_dangling by assumption. simpl.
      rewrite app_nil_r. repeat split; auto; discriminate.
Qed.

(** C7.  Segmentation is deterministic: [binge_analysis] run twice in a row
    on the same record set creates the same objects both times (the sorted
    frame, its annotated copy with the session ids, the session table with
    counts, start, end and duration, and the returned table) and returns
    the same one of them, or raises the same exception. *)
Theorem segmentation_is_deterministic `{Platform} (s : store) (df : ref) :
  exists (l : list DataFrame) (outcome : result nat),
    binge_analysis df s
    = (rmap (Nat.add (length s)) outcome, s ++ l) /\
    binge_analysis df (s ++ l)
    = (rmap (Nat.add (length (s ++ l))) outcome, (s ++ l) ++ l).
Proof.
  destruct (nth_error s df) as [table|] eqn:Hdf.
  - destruct (binge_analysis_relocates s df table Hdf)
      as [l [(k & Hrun & Halone) | (e & Hrun & Halone)]].
    + exists l, (Ok k). split; [exact Hrun|].
      destruct (binge_analysis_relocates (s ++ l) df table (nth_error_old _ _ _ _ Hdf))
        as [l' [(k' & Hrun' & Halone') | (e' & Hrun' & Halone')]];
        rewrite Halone in Halone'; [|discriminate].
      injection Halone' as -> ->. exact Hrun'.
    + exists l, (Err e). split; [exact Hrun|].
      destruct (binge_analysis_relocates (s ++ l) df table (nth_error_old _ _ _ _ Hdf))
        as [l' [(k' & Hrun' & Halone') | (e' & Hrun' & Halone')]];
        rewrite Halone in Halone'; [discriminate|].
      injection Halone' as -> ->. exact Hrun'.
  - exists [], (Err Dangling). rewrite !app_nil_r.
    rewrite binge_analysis_dangling by assumption. auto.
Qed.

(** ** The sessions *)

Lemma well_formed_column k c df :
  well_formed df -> get_column k df = Ok c -> col_length c = len df.
Proof.
  intros Hwf Hget. apply get_column_In in Hget.
  unfold well_formed in Hwf. rewrite Forall_forall in Hwf.
  exact (Hwf _ Hget).
Qed.

Lemma get_annotated_session_id sorted dates :
  NoDup (labels sorted) ->
  get_column "session_id" (annotated sorted dates)
  = Ok (Int64 (map Some (session_ids dates))).
Proof.
  intros Hnd. unfold annotated. apply get_set_same.
  now do 2 apply NoDup_labels_set_column.
Qed.


Lemma session_ids_defined dates i d :
  nth_error dates i = Some d -> exists k, nth_error (session_ids dates) i = Some k.
Proof.
  intros Hd.
  destruct (nth_error (session_ids dates) i) as [k|] eqn:Hk; [eauto|].
  apply nth_error_None in Hk. rewrite session_ids_length in Hk.
  assert (nth_error dates i <> None) as Hi by congruence.
  apply nth_error_Some in Hi. lia.
Qed.


(** ** What is returned *)

Lemma argsort_one `{Platform} k : argsort [k] = [0%nat].
Proof.
  pose proof (argsort_perm [k]) as Hp. simpl in Hp.
  apply Permutation_sym, Permutation_length_1_inv in Hp. exact Hp.
Qed.

Lemma argsort_nil `{Platform} : argsort [] = [].
Proof.
  pose proof (argsort_perm []) as Hp. simpl in Hp.
  now apply Permutation_sym, Permutation_nil in Hp.
Qed.



(** ** The normalizer *)

Lemma clean_data_ok `{Platform} s df table c s' :
  nth_error s df = Some table ->
  clean_data df s = (Ok c, s') ->
  exists date ts titles,
    get_column "date" (standardize table) = Ok date /\
    to_datetime date = Ok (Datetime ts) /\
    get_column "title" (standardize table) = Ok (Text titles) /\
    get_column "is_movie" (normalized (standardize table) ts titles)
    = Ok (Boolean (is_movie_flags titles)) /\
    c = length s /\
    s' = s ++ [normalized (standardize table) ts titles].
Proof.
  intros Hdf Hrun.
  destruct (clean_data_relocates s df table Hdf)
    as [l [(k & Hrun' & Halone) | (e & Hrun' & _)]]; [|congruence].
  destruct (clean_data_alone _ _ _ Halone)
    as (date & ts & titles & Hdate & Hparse & Htitle & Hmovie & Hk & Hl).
  exists date, ts, titles. repeat split; try assumption.
  - injection Hk as ->. rewrite Hrun' in Hrun. injection Hrun as <- _. lia.
  - injection Hl as ->. congruence.
Qed.

Lemma parse_cells_unparseable p cells : forall pos i,
  first_unparseable p cells = Some i ->
  parse_cells p pos cells = Err (DateParseError (pos + i)).
Proof.
  induction cells as [|[d|] cells IH]; intros pos i; simpl.
  - discriminate.
  - destruct (p d) as [t|].
    + destruct (first_unparseable p cells) as [i'|]; [|discriminate].
      simpl. intros [= <-]. rewrite (IH (S pos) i' eq_refl). simpl.
      f_equal. f_equal. lia.
    + intros [= <-]. f_equal. f_equal. lia.
  - destruct (first_unparseable p cells) as [i'|]; [|discriminate].
    simpl. intros [= <-]. rewrite (IH (S pos) i' eq_refl). simpl.
    f_equal. f_equal. lia.
Qed.

Lemma parse_cells_ok p cells : forall pos ts,
  parse_cells p pos cells = Ok ts -> Forall2 (parsed_as p) cells ts.
Proof.
  induction cells as [|[d|] cells IH]; intros pos ts; simpl.
  - intros [= <-]. constructor.
  - destruct (p d) as [t|] eqn:Hd; [|discriminate].
    destruct (parse_cells p (S pos) cells) as [ts'|] eqn:Hrest; [|discriminate].
    simpl. intros [= <-]. constructor; [exact Hd | eapply IH, Hrest].
  - destruct (parse_cells p (S pos) cells) as [ts'|] eqn:Hrest; [|discriminate].
    simpl. intros [= <-]. constructor; [reflexivity | eapply IH, Hrest].
Qed.

(** [first_unparseable] finds an unparseable cell, the first one, whenever
    there is one. *)
Lemma first_unparseable_spec p cells i :
  first_unparseable p cells = Some i <->
  (exists d, nth_error cells i = Some (Some d) /\ p d = None) /\
  (forall j d, (j < i)%nat -> nth_error cells j = Some (Some d) -> p d <> None).
Proof.
  revert i. induction cells as [|cell cells IH]; intros i.
  - simpl. split; [discriminate|]. intros [[d [Hd _]] _]. destruct i; discriminate.
  - assert (Hrest : forall i, option_map S (first_unparseable p cells) = Some i <->
              (exists i', i = S i' /\ first_unparseable p cells = Some i')).
    { intros i0. destruct (first_unparseable p cells) as [i'|]; simpl; split.
      - intros [= <-]. eauto.
      - intros [i0' [-> [= ->]]]. reflexivity.
      - discriminate.
      - intros [i0' [_ Hn]]. discriminate. }
    assert (Hskip : (forall d, cell = Some d -> p d <> None) ->
              (option_map S (first_unparseable p cells) = Some i <->
               (exists d, nth_error (cell :: cells) i = Some (Some d) /\ p d = None) /\
               (forall j d, (j < i)%nat -> nth_error (cell :: cells) j = Some (Some d) ->
                            p d <> None))).
    { intros Hcell. rewrite Hrest. split.
      - intros [i' [-> Hi']]. apply IH in Hi'. destruct Hi' as [Hex Hbefore].
        split; [exact Hex|]. intros [|j] d Hj; simpl.
        + intros [= ->]. now apply Hcell.
        + apply Hbefore. lia.
      - intros [[d [Hd Hpd]] Hbefore]. destruct i as [|i'].
        + simpl in Hd. injection Hd as ->. now elim (Hcell d).
        + exists i'. split; [reflexivity|]. apply IH. split; [eauto|].
          intros j d' Hj. apply (Hbefore (S j)). lia. }
    simpl. destruct cell as [d|].
    + destruct (p d) as [t|] eqn:Hd.
      * apply Hskip. intros d' [= <-]. congruence.
      * split.
        -- intros [= <-]. split; [exists d; split; [reflexivity | exact Hd]|].
           intros j d' Hj. lia.
        -- intros [_ Hbefore]. destruct i as [|i']; [reflexivity|].
           elim (Hbefore 0%nat d); [lia | reflexivity | exact Hd].
    + apply Hskip. discriminate.
Qed.

Lemma first_unparseable_exists p cells i d :
  nth_error cells i = Some (Some d) -> p d = None ->
  exists i0, first_unparseable p cells = Some i0 /\ (i0 <= i)%nat.
Proof.
  revert i. induction cells as [|cell cells IH]; intros i Hi Hd.
  - destruct i; discriminate.
  - destruct i as [|i]; simpl in *.
    + injection Hi as ->. rewrite Hd. exists 0%nat. auto.
    + destruct (IH i Hi Hd) as [i0 [Hi0 Hle]].
      destruct cell as [d'|]; [destruct (p d')|]; rewrite ?Hi0; simpl;
        eexists; split; try reflexivity; lia.
Qed.

Lemma nth_error_first_new {A} (s l : list A) (x : A) :
  nth_error (s ++ x :: l) (length s) = Some x.
Proof. rewrite nth_error_app2 by lia. now rewrite Nat.sub_diag. Qed.

Lemma filter_set_column k c df :
  has_column k df = true ->
  filter (labelled k) (columns (set_column k c df))
  = map (fun _ => (k, c)) (filter (labelled k) (columns df)).
Proof.
  intros Hhas. unfold set_column. rewrite Hhas. simpl.
  induction (columns df) as [|p cols IH]; simpl; [reflexivity|].
  destruct (labelled k p) eqn:E.
  - assert (labelled k (k, c) = true) as -> by (now apply labelled_spec).
    simpl. now rewrite IH.
  - rewrite E. exact IH.
Qed.

(** A column that can be read can be read back after it is written. *)
Lemma get_set_same_of_get k c c0 df :
  get_column k df = Ok c0 -> get_column k (set_column k c df) = Ok c.
Proof.
  intros Hget. pose proof (get_column_has _ _ _ Hget) as Hhas.
  unfold get_column in *. rewrite filter_set_column by assumption.
  destruct (filter (labelled k) (columns df)) as [|[k' c'] [|? ?]]; try discriminate.
  reflexivity.
Qed.

Lemma get_normalized_other k x ts titles :
  ~ In k derived_labels ->
  get_column k (normalized x ts titles) = get_column k x.
Proof.
  intros Hk. unfold normalized.
  rewrite !get_set_other; [reflexivity | ..];
    intros ->; apply Hk; simpl; tauto.
Qed.

Lemma get_normalized_date x ts titles date :
  get_column "date" x = Ok date ->
  get_column "date" (normalized x ts titles) = Ok (Datetime ts).
Proof.
  intros Hdate. unfold normalized.
  rewrite !get_set_other by discriminate.
  eapply get_set_same_of_get, Hdate.
Qed.

Lemma index_normalized x ts titles : index (normalized x ts titles) = index x.
Proof. reflexivity. Qed.

Lemma columns_standardize table :
  map snd (columns (standardize table)) = map snd (columns table).
Proof.
  unfold standardize. generalize column_mapping. intros mapping. revert table.
  induction mapping as [|[o n] mapping IH]; intros table; simpl; [reflexivity|].
  rewrite IH. destruct (has_column o table); [|reflexivity].
  unfold rename. simpl. rewrite map_map. apply map_ext.
  intros p. now destruct (labelled o p).
Qed.

Lemma well_formed_standardize table :
  well_formed table -> well_formed (standardize table).
Proof.
  unfold well_formed, len. rewrite index_standardize.
  rewrite <- !(Forall_map snd (fun c => col_length c = length (index table))).
  now rewrite columns_standardize.
Qed.

Lemma well_formed_set_column k c df :
  well_formed df -> col_length c = len df -> well_formed (set_column k c df).
Proof.
  unfold well_formed, len, set_column. simpl. intros Hwf Hc.
  destruct (has_column k df).
  - apply Forall_map. eapply Forall_impl; [|exact Hwf].
    intros p Hp. now destruct (labelled k p).
  - apply Forall_app. split; [assumption|]. now constructor.
Qed.

Lemma parse_cells_length p cells : forall pos ts,
  parse_cells p pos cells = Ok ts -> length ts = length cells.
Proof.
  intros pos ts Hp. apply parse_cells_ok in Hp.
  symmetry. eapply Forall2_length, Hp.
Qed.

Lemma to_datetime_length `{Platform} c ts :
  to_datetime c = Ok (Datetime ts) -> length ts = col_length c.
Proof.
  destruct c; simpl; try discriminate.
  - destruct (parse_cells _ _ _) as [ts'|] eqn:Hp; simpl; [|discriminate].
    intros [= <-]. eapply parse_cells_length, Hp.
  - now intros [= <-].
Qed.

Lemma well_formed_normalized `{Platform} x date ts titles :
  well_formed x ->
  get_column "date" x = Ok date ->
  to_datetime date = Ok (Datetime ts) ->
  get_column "title" x = Ok (Text titles) ->
  well_formed (normalized x ts titles).
Proof.
  intros Hwf Hdate Hparse Htitle.
  assert (Hts : length ts = len x).
  { rewrite (to_datetime_length _ _ Hparse). eapply well_formed_column; eassumption. }
  assert (Htitles : length titles = len x).
  { exact (well_formed_column _ _ _ Hwf Htitle). }
  unfold normalized.
  repeat (apply well_formed_set_column;
          [| simpl; unfold is_movie_flags; rewrite ?length_map; assumption]).
  exact Hwf.
Qed.

(** C9.  When [clean_data] returns, the frame it returns has the index of
    the input table, label for label in the same order, and so as many
    rows.  Its columns other than the seven it sets are those of the input
    (after renaming), cell for cell; its title column is the input's; its
    date column holds, row by row, the timestamps the input's date cells
    were parsed to.  Nothing is sorted or dropped. *)
Theorem normalizer_keeps_rows_in_order `{Platform}
    (s : store) (df : ref) (table : DataFrame) (c : ref) (s' : store) :
  nth_error s df = Some table ->
  clean_data df s = (Ok c, s') ->
  exists cleaned date ts titles,
    nth_error s' c = Some cleaned /\
    index cleaned = index table /\
    len cleaned = len table /\
    (well_formed table -> well_formed cleaned) /\
    map snd (columns (standardize table)) = map snd (columns table) /\
    (forall k, ~ In k derived_labels ->
               get_column k cleaned = get_column k (standardize table)) /\
    get_column "title" (standardize table) = Ok (Text titles) /\
    get_column "title" cleaned = Ok (Text titles) /\
    get_column "date" (standardize table) = Ok date /\
    to_datetime date = Ok (Datetime ts) /\
    get_column "date" cleaned = Ok (Datetime ts) /\
    length ts = col_length date /\
    (forall cells, date = Text cells ->
                   Forall2 (parsed_as (strptime cells)) cells ts) /\
    (forall stamps, date = Datetime stamps -> ts = stamps).
Proof.
  intros Hdf Hrun.
  destruct (clean_data_ok s df table c s' Hdf Hrun)
    as (date & ts & titles & Hdate & Hparse & Htitle & Hmovie & -> & ->).
  exists (normalized (standardize table) ts titles), date, ts, titles.
  split; [apply nth_error_first_new|].
  split; [now rewrite index_normalized, index_standardize|].
  split; [unfold len; now rewrite index_normalized, index_standardize|].
  split.
  { intros Hwf. eapply well_formed_normalized; try eassumption.
    now apply well_formed_standardize. }
  split; [apply columns_standardize|].
  split; [intros k Hk; now apply get_normalized_other|].
  split; [assumption|].
  split.
  { rewrite get_normalized_other; [assumption|]. simpl. intuition discriminate. }
  split; [assumption|].
  split; [assumption|].
  split; [eapply get_normalized_date, Hdate|].
  split; [now apply to_datetime_length|].
  split.
  - intros cells ->. simpl in Hparse.
    destruct (parse_cells _ _ _) as [ts'|] eqn:Hp; [|discriminate].
    simpl in Hparse. injection Hparse as <-. eapply parse_cells_ok, Hp.
  - intros stamps ->. simpl in Hparse. now injection Hparse as <-.
Qed.

Lemma clean_data_alone_unparseable `{Platform} table cells i :
  get_column "date" (standardize table) = Ok (Text cells) ->
  first_unparseable (strptime cells) cells = Some i ->
  clean_data 0 [table] = (Err (DateParseError i), [table; standardize table]).
Proof.
  intros Hdate Hfirst. unfold clean_data.
  unfold bind at 1. rewrite (run_copy [table] 0 table eq_refl).
  cbn [length app].
  unfold bind at 1.
  rewrite (rename_loop column_mapping 1 [table; table] table eq_refl).
  fold (standardize table). cbn [update].
  unfold bind at 1. unfold getitem at 1. unfold read. cbn [nth_error].
  rewrite Hdate. unfold bind at 1. unfold lift at 1.
  unfold to_datetime. rewrite (parse_cells_unparseable _ _ 0 i Hfirst).
  reflexivity.
Qed.

Lemma main_raises_with_clean_data `{Platform} table s e l :
  clean_data (length s) (s ++ [table]) = (Err e, l) ->
  main (Some table) s = (Err e, l).
Proof.
  intros Hclean. unfold main. unfold bind at 1. unfold alloc.
  unfold bind at 1. now rewrite Hclean.
Qed.

(** C8.  Parsing fails fast.  When some cell of the date column cannot be
    parsed, [clean_data] raises, naming the position of the first such
    cell, and returns no frame; [main] does not catch the exception, so the
    run ends with it.  When [clean_data] returns, every date cell of its
    frame is the timestamp its input cell was parsed to, or NaT for a
    missing cell: no unparsed date is in the output. *)
Theorem unparseable_date_is_fatal `{Platform}
    (s : store) (df : ref) (table : DataFrame) (cells : list (option str)) :
  nth_error s df = Some table ->
  get_column "date" (standardize table) = Ok (Text cells) ->
  (forall i d,
      nth_error cells i = Some (Some d) -> strptime cells d = None ->
      exists first d0,
        (first <= i)%nat /\
        nth_error cells first = Some (Some d0) /\ strptime cells d0 = None /\
        (forall j d', (j < first)%nat -> nth_error cells j = Some (Some d') ->
                      strptime cells d' <> None) /\
        fst (clean_data df s) = Err (DateParseError first) /\
        fst (main (Some table) s) = Err (DateParseError first)) /\
  (forall c s',
      clean_data df s = (Ok c, s') ->
      exists cleaned ts,
        nth_error s' c = Some cleaned /\
        get_column "date" cleaned = Ok (Datetime ts) /\
        Forall2 (parsed_as (strptime cells)) cells ts).
Proof.
  intros Hdf Hdate. split.
  - intros i d Hi Hd.
    destruct (first_unparseable_exists _ _ _ _ Hi Hd) as [first [Hfirst Hle]].
    pose proof (proj1 (first_unparseable_spec _ _ _) Hfirst) as [[d0 [Hd0 Hp0]] Hbefore].
    exists first, d0. repeat split; try assumption.
    + pose proof (clean_data_alone_unparseable table cells first Hdate Hfirst) as Halone.
      destruct (clean_data_relocates s df table Hdf)
        as [l [(k & Hrun & Hcanon) | (e & Hrun & Hcanon)]];
        rewrite Halone in Hcanon; [discriminate|].
      injection Hcanon as -> _. now rewrite Hrun.
    + pose proof (clean_data_alone_unparseable table cells first Hdate Hfirst) as Halone.
      destruct (clean_data_relocates (s ++ [table]) (length s) table
                  (nth_error_first_new s [] table))
        as [l [(k & Hrun & Hcanon) | (e & Hrun & Hcanon)]];
        rewrite Halone in Hcanon; [discriminate|].
      injection Hcanon as -> _.
      now rewrite (main_raises_with_clean_data _ _ _ _ Hrun).
  - intros c s' Hrun.
    destruct (clean_data_ok s df table c s' Hdf Hrun)
      as (date & ts & titles & Hdate' & Hparse & _ & _ & -> & ->).
    exists (normalized (standardize table) ts titles), ts.
    split; [apply nth_error_first_new|].
    split; [eapply get_normalized_date, Hdate'|].
    rewrite Hdate in Hdate'. injection Hdate' as <-. simpl in Hparse.
    destruct (parse_cells _ _ _) as [ts'|] eqn:Hp; [|discriminate].
    simpl in Hparse. injection Hparse as <-. eapply parse_cells_ok, Hp.
Qed.

(** ** Movies *)

Lemma re_match_year t :
  re_match year_pattern t = true <->
  exists d1 d2 d3 d4 post,
    t = [0x28%N; d1; d2; d3; d4; 0x29%N] ++ post /\
    is_decimal d1 = true /\ is_decimal d2 = true /\
    is_decimal d3 = true /\ is_decimal d4 = true.
Proof.
  split.
  - destruct t as [|c0 [|d1 [|d2 [|d3 [|d4 [|c5 post]]]]]]; simpl;
      rewrite ?andb_false_r; try discriminate.
    rewrite andb_true_r, !andb_true_iff, !N.eqb_eq.
    intros (-> & H1 & H2 & H3 & H4 & ->).
    exists d1, d2, d3, d4, post. auto.
  - intros (d1 & d2 & d3 & d4 & post & -> & H1 & H2 & H3 & H4).
    simpl. now rewrite H1, H2, H3, H4.
Qed.

(** The search of [clean_data] finds exactly the texts with a parenthesised
    group of four decimal digits. *)
Lemma re_search_year t :
  re_search year_pattern t = true <-> paren_year is_decimal t.
Proof.
  unfold paren_year. split.
  - induction t as [|c t IH].
    + simpl. discriminate.
    + change (re_search year_pattern (c :: t))
        with (re_match year_pattern (c :: t) || re_search year_pattern t).
      intros Hs. apply orb_true_iff in Hs. destruct Hs as [Hm|Hs].
      * apply re_match_year in Hm.
        destruct Hm as (d1 & d2 & d3 & d4 & post & Ht & Hd).
        exists [], d1, d2, d3, d4, post. auto.
      * destruct (IH Hs) as (pre & d1 & d2 & d3 & d4 & post & -> & Hd).
        exists (c :: pre), d1, d2, d3, d4, post. auto.
  - intros (pre & d1 & d2 & d3 & d4 & post & -> & Hd).
    induction pre as [|c pre IH].
    + assert (Hm : re_match year_pattern ([0x28%N; d1; d2; d3; d4; 0x29%N] ++ post) = true).
      { apply re_match_year. exists d1, d2, d3, d4, post. auto. }
      simpl app. simpl app in Hm.
      change (re_match year_pattern (0x28%N :: d1 :: d2 :: d3 :: d4 :: 0x29%N :: post)
              || re_search year_pattern (d1 :: d2 :: d3 :: d4 :: 0x29%N :: post) = true).
      now rewrite Hm.
    + change (re_match year_pattern (c :: pre ++ [0x28%N; d1; d2; d3; d4; 0x29%N] ++ post)
              || re_search year_pattern (pre ++ [0x28%N; d1; d2; d3; d4; 0x29%N] ++ post)
              = true).
      rewrite IH. apply orb_true_r.
Qed.

Lemma is_movie_flags_spec titles :
  Forall2 (fun title is_movie =>
             is_movie = true <->
             exists t, title = Some t /\ paren_year is_decimal t)
    titles (is_movie_flags titles).
Proof.
  unfold is_movie_flags. induction titles as [|[t|] titles IH]; simpl;
    constructor; try assumption.
  - rewrite re_search_year. split.
    + intros Ht. eauto.
    + now intros [t' [[= <-] Ht]].
  - split; [discriminate|]. now intros [t [Ht _]].
Qed.

Lemma In_set_column_same k c df : In (k, c) (columns (set_column k c df)).
Proof.
  pose proof (In_labels_set_column k c df) as Hin.
  unfold labels in Hin. apply in_map_iff in Hin. destruct Hin as [p [Hk Hp]].
  now rewrite <- (In_set_column k c df p Hp Hk).
Qed.


Lemma arabic_year_not_ascii : ~ paren_year is_ascii_digit arabic_year_title.
Proof.
  intros (pre & d1 & d2 & d3 & d4 & post & Ht & H1 & _).
  assert (Hlen : length arabic_year_title = (length pre + (6 + length post))%nat).
  { rewrite Ht. now rewrite !length_app. }
  simpl in Hlen.
  destruct pre as [|? pre]; [|simpl in Hlen; lia].
  simpl in Ht. injection Ht as <- _. discriminate.
Qed.


(** ** The empty table *)

Lemma distinct_NoDup l : distinct l = true -> NoDup l.
Proof.
  induction l as [|x l IH]; simpl; intros Hd; constructor.
  - apply andb_true_iff in Hd. destruct Hd as [Hx _].
    apply negb_true_iff in Hx. intros Hin.
    assert (existsb (String.eqb x) l = true); [|congruence].
    apply existsb_exists. exists x. split; [assumption | apply String.eqb_refl].
  - apply IH. apply andb_true_iff in Hd. tauto.
Qed.

(** C5, at the table with no row.  [clean_data] returns a frame with no
    row, and [binge_analysis] a session table with no row.  But
    [show_basic_stats] raises on that frame: the minimum of no date is NaT,
    which has no [strftime]; and past that, the number of active days is
    zero and dividing the number of views by it raises
    [ZeroDivisionError].  [main] ends with the exception. *)
Theorem empty_table_stops_the_report `{Platform} :
  clean_data 0 [header_only] = (Ok 1%nat, [header_only; cleaned_header_only]) /\
  len cleaned_header_only = 0%nat /\
  fst (show_basic_stats 1 [header_only; cleaned_header_only]) = Err NaTStrftime /\
  fst (main (Some header_only) []) = Err NaTStrftime /\
  rbind (get_column "date" cleaned_header_only) nunique_dates = Ok 0 /\
  truediv (Z.of_nat (len cleaned_header_only)) 0 = Err ZeroDivisionError /\
  (exists binge_sessions,
      binge_analysis 1 [header_only; cleaned_header_only]
      = (Ok 5%nat, [header_only; cleaned_header_only] ++ binge_sessions) /\
      Forall (fun t => len t = 0%nat) binge_sessions).
Proof.
  split; [reflexivity|].
  split; [reflexivity|].
  split; [reflexivity|].
  split; [reflexivity|].
  split; [reflexivity|].
  split; [reflexivity|].
  eexists. split.
  - apply (binge_analysis_run [header_only; cleaned_header_only] 1
             cleaned_header_only [] (Text [])).
    + reflexivity.
    + apply distinct_NoDup. reflexivity.
    + reflexivity.
    + reflexivity.
  - rewrite argsort_nil. repeat constructor.
Qed.

(** ** Ties *)

(** The contract of the sort does not settle the order of equal keys: of
    the two installations, one keeps two equal timestamps in input order
    and the other swaps them. *)
Lemma tie_order_depends_on_installation :
  keeps_ties_in_input_order [Some 5; Some 5] (@argsort stable_platform [Some 5; Some 5]) /\
  ~ keeps_ties_in_input_order [Some 5; Some 5]
      (@argsort reversing_platform [Some 5; Some 5]).
Proof.
  split.
  - intros i j a b Hij Ha Hb _. change (nth_error [0; 1]%nat i = Some a) in Ha.
    change (nth_error [0; 1]%nat j = Some b) in Hb.
    destruct i as [|[|i]], j as [|[|j]]; simpl in *; try lia; try discriminate;
      try (destruct j; discriminate); try (destruct i; discriminate).
    injection Ha as <-. injection Hb as <-. lia.
  - intros Hkeep. specialize (Hkeep 0 1 1 0)%nat.
    assert (1 < 0)%nat; [apply Hkeep; auto; reflexivity | lia].
Qed.

(** ** The theorems at the sample tables *)

Lemma sample_history_is_normalized :
  @clean_data stable_platform 0%nat [sample_history]
  = (Ok 1%nat, [sample_history; cleaned_history]).
Proof. vm_compute. reflexivity. Qed.




(** [clean_data] returns on the sample history, and C9 holds of it. *)
Lemma normalizer_keeps_rows_in_order_witness :
  @clean_data stable_platform 0%nat [sample_history]
  = (Ok 1%nat, [sample_history; cleaned_history]) /\
  exists cleaned,
    nth_error [sample_history; cleaned_history] 1 = Some cleaned /\
    index cleaned = index sample_history /\
    len cleaned = 3%nat.
Proof.
  split; [exact sample_history_is_normalized|].
  destruct (@normalizer_keeps_rows_in_order stable_platform
              [sample_history] 0%nat sample_history 1%nat
              [sample_history; cleaned_history]
              eq_refl sample_history_is_normalized)
    as (cleaned & date & ts & titles & Hc & Hindex & Hlen & _).
  exists cleaned. auto.
Defined.


(** The garbled history meets the hypotheses of C8: its third date does not
    parse, nor does its second, and [clean_data] and [main] raise. *)
Lemma unparseable_date_is_fatal_witness :
  (get_column "date" (standardize garbled_history) = Ok (text garbled_dates) /\
   nth_error (map (fun s => Some (of_string s)) garbled_dates) 2
   = Some (Some (of_string "soon")) /\
   iso_strptime (map (fun s => Some (of_string s)) garbled_dates) (of_string "soon")
   = None) /\
  exists first,
    (first <= 2)%nat /\
    fst (@clean_data stable_platform 0%nat [garbled_history])
    = Err (DateParseError first) /\
    fst (@main stable_platform (Some garbled_history) [garbled_history])
    = Err (DateParseError first).
Proof.
  split; [repeat split|].
  destruct (@unparseable_date_is_fatal stable_platform
              [garbled_history] 0%nat garbled_history
              (map (fun s => Some (of_string s)) garbled_dates)
              eq_refl eq_refl)
    as [Hfails _].
  destruct (Hfails 2%nat (of_string "soon") eq_refl eq_refl)
    as (first & d0 & Hle & _ & _ & _ & Hclean & Hmain).
  exists first. auto.
Defined.

(** * More properties of the script *)

(** ** Loading *)

Lemma load_first_skips dir pre files :
  (forall f, In f pre -> dir f = None) ->
  load_first dir (pre ++ files) = load_first dir files.
Proof.
  induction pre as [|f pre IH]; intros Hnone; simpl; [reflexivity|].
  rewrite (Hnone f) by now left. apply IH. intros f' Hf'. apply Hnone. now right.
Qed.

Lemma load_first_none dir files :
  load_first dir files = Ok None <-> forall f, In f files -> dir f = None.
Proof.
  induction files as [|f files IH]; simpl.
  - split; [intros _ f [] | reflexivity].
  - destruct (dir f) as [read|] eqn:Hf.
    + split.
      * destruct read; discriminate.
      * intros Hnone. specialize (Hnone f (or_introl eq_refl)). congruence.
    + rewrite IH. split.
      * intros Hnone f' [<-|Hf']; auto.
      * intros Hnone f' Hf'. apply Hnone. now right.
Qed.

(** X1.  The first candidate that exists wins: when a candidate exists and
    none of the candidates before it in the list does, [load_data] returns
    what reading that file gives, a table or the exception of
    [pd.read_csv]; the candidates after it are not looked at, and an
    unreadable first match is not skipped. *)
Theorem load_data_first_match_wins
    (dir : directory) (earlier later : list string) (file : string)
    (read : result DataFrame) :
  possible_files = earlier ++ file :: later ->
  (forall f, In f earlier -> dir f = None) ->
  dir file = Some read ->
  load_data dir = rmap Some read.
Proof.
  intros Hfiles Hnone Hfile. unfold load_data. rewrite Hfiles.
  rewrite load_first_skips by assumption. simpl. now rewrite Hfile.
Qed.

(** X2.  [load_data] finds no source exactly when none of its four
    candidates exists, whatever else the directory holds; [main] then
    returns at once, without creating any object. *)
Theorem no_source_iff_no_candidate `{Platform} (dir : directory) :
  (load_data dir = Ok None <-> forall f, In f possible_files -> dir f = None) /\
  (load_data dir = Ok None -> forall s, main_in dir s = (Ok None, s)).
Proof.
  split; [apply load_first_none|].
  intros Hnone s. unfold main_in, bind, lift. now rewrite Hnone.
Qed.

(** ** Counting values *)

Lemma str_eqb_eq a b : str_eqb a b = true <-> a = b.
Proof.
  unfold str_eqb. destruct (list_eq_dec N.eq_dec a b); split; congruence.
Qed.

Section CountingProperties.
Context {A : Type}.
Variable eqb : A -> A -> bool.
Hypothesis eqb_eq : forall a b, eqb a b = true <-> a = b.

Lemma eqb_refl a : eqb a a = true.
Proof. now apply eqb_eq. Qed.

Lemma eqb_neq a b : eqb a b = false <-> a <> b.
Proof.
  destruct (eqb a b) eqn:E; split; try congruence.
  - apply eqb_eq in E. congruence.
  - intros _ Hab. apply eqb_eq in Hab. congruence.
Qed.

Lemma uniques_In x xs : In x (uniques eqb xs) <-> In x xs.
Proof.
  induction xs as [|y xs IH]; simpl; [tauto|].
  rewrite filter_In, IH, negb_true_iff, eqb_neq.
  split.
  - intros [->|[Hin _]]; auto.
  - intros [->|Hin]; [now left|].
    destruct (eqb y x) eqn:E.
    + apply eqb_eq in E. now left.
    + right. split; [assumption|]. now apply eqb_neq.
Qed.

Lemma uniques_NoDup xs : NoDup (uniques eqb xs).
Proof.
  induction xs as [|y xs IH]; simpl; constructor.
  - rewrite filter_In, negb_true_iff, eqb_neq. intros [_ Hyy]. now apply Hyy.
  - now apply NoDup_filter.
Qed.

Lemma occurrences_pos x xs : In x xs -> 1 <= occurrences eqb x xs.
Proof.
  unfold occurrences. induction xs as [|y xs IH]; simpl; [tauto|].
  intros [->|Hin].
  - rewrite eqb_refl. simpl. lia.
  - destruct (eqb x y); simpl; [lia | auto].
Qed.

Lemma occurrences_absent x xs : ~ In x xs -> occurrences eqb x xs = 0.
Proof.
  unfold occurrences. induction xs as [|y xs IH]; simpl; [reflexivity|].
  intros Hn. destruct (eqb x y) eqn:E.
  - apply eqb_eq in E. subst y. tauto.
  - apply IH. tauto.
Qed.

Lemma total_ext (f g : A -> Z) l :
  (forall x, In x l -> f x = g x) -> total f l = total g l.
Proof.
  induction l as [|x l IH]; simpl; intros Hfg; [reflexivity|].
  rewrite Hfg by now left. rewrite IH; [reflexivity|]. intros y Hy. apply Hfg. now right.
Qed.

Lemma total_without (f : A -> Z) x l :
  NoDup l ->
  total f l = (if existsb (eqb x) l then f x else 0)
              + total f (filter (fun y => negb (eqb x y)) l).
Proof.
  induction 1 as [|y l Hy Hnd IH]; simpl; [reflexivity|].
  destruct (eqb x y) eqn:E; simpl.
  - apply eqb_eq in E. subst y.
    assert (existsb (eqb x) l = false) as Hx.
    { destruct (existsb (eqb x) l) eqn:Ex; [|reflexivity].
      apply existsb_exists in Ex. destruct Ex as [z [Hz Hxz]].
      apply eqb_eq in Hxz. subst z. contradiction. }
    rewrite IH, Hx. lia.
  - rewrite IH. destruct (existsb (eqb x) l); lia.
Qed.

(** The occurrences of the distinct values add up to the number of values. *)
Lemma total_occurrences xs :
  total (fun v => occurrences eqb v xs) (uniques eqb xs) = Z.of_nat (length xs).
Proof.
  induction xs as [|x xs IH]; [reflexivity|].
  change (uniques eqb (x :: xs))
    with (x :: filter (fun y => negb (eqb x y)) (uniques eqb xs)).
  change (total ?f (?a :: ?l)) with (f a + total f l).
  assert (Hx : occurrences eqb x (x :: xs) = 1 + occurrences eqb x xs).
  { unfold occurrences. cbn [filter]. rewrite eqb_refl. cbn [length]. lia. }
  cbv beta. rewrite Hx.
  rewrite (total_ext _ (fun v => occurrences eqb v xs)).
  - pose proof (total_without (fun v => occurrences eqb v xs) x _ (uniques_NoDup xs)) as Hsplit.
    rewrite IH in Hsplit.
    destruct (existsb (eqb x) (uniques eqb xs)) eqn:Ex.
    + cbn [length]. lia.
    + assert (~ In x xs) as Hn.
      { intros Hin. apply uniques_In in Hin.
        assert (existsb (eqb x) (uniques eqb xs) = true); [|congruence].
        apply existsb_exists. exists x. split; [assumption | apply eqb_refl]. }
      rewrite (occurrences_absent _ _ Hn). cbn [length]. lia.
  - intros v Hv. apply filter_In in Hv. destruct Hv as [_ Hv].
    apply negb_true_iff, eqb_neq in Hv.
    assert (eqb v x = false) as Hvx by (apply eqb_neq; congruence).
    unfold occurrences. cbn [filter]. now rewrite Hvx.
Qed.
End CountingProperties.

(** ** Descending order *)

Lemma na_last_le_trans a b c : na_last_le a b -> na_last_le b c -> na_last_le a c.
Proof. destruct a, b, c; simpl; try tauto; lia. Qed.

Lemma take_in_range {A} (d d' : A) ix l :
  Forall (fun i => (i < length l)%nat) ix -> take d ix l = take d' ix l.
Proof.
  intros Hix. unfold take. apply map_ext_in. intros i Hi.
  rewrite Forall_forall in Hix. apply nth_indep. now apply Hix.
Qed.

Lemma Permutation_seq_range ix n :
  Permutation ix (seq 0 n) -> Forall (fun i => (i < n)%nat) ix.
Proof.
  intros Hp. apply Forall_forall. intros i Hi.
  eapply Permutation_in in Hi; [|exact Hp]. apply in_seq in Hi. lia.
Qed.

Lemma pick_rows_take {A} (d : A) order l :
  Forall (fun i => (i < length l)%nat) order ->
  pick_rows order l = take d order l.
Proof.
  unfold pick_rows, take. induction 1 as [|i order Hi _ IH]; simpl; [reflexivity|].
  rewrite IH. destruct (nth_error l i) as [x|] eqn:Hx.
  - simpl. f_equal. symmetry. now apply nth_error_nth.
  - apply nth_error_None in Hx. lia.
Qed.

Lemma mirror_seq n :
  map (fun j => (n - 1 - j)%nat) (seq 0 n) = rev (seq 0 n).
Proof.
  apply (nth_ext _ _ 0%nat 0%nat).
  - now rewrite length_map, length_rev.
  - intros i Hi. rewrite length_map, length_seq in Hi.
    rewrite (nth_indep _ 0%nat ((fun j => (n - 1 - j)%nat) 0%nat))
      by (now rewrite length_map, length_seq).
    rewrite map_nth, seq_nth by assumption.
    rewrite rev_nth by (now rewrite length_seq).
    rewrite length_seq, seq_nth by lia. lia.
Qed.

Lemma desc_argsort_Permutation `{Platform} ks :
  Permutation (desc_argsort ks) (seq 0 (length ks)).
Proof.
  unfold desc_argsort. rewrite <- Permutation_rev.
  pose proof (argsort_perm (rev ks)) as Hp. rewrite length_rev in Hp.
  rewrite (Permutation_map _ Hp). rewrite mirror_seq. symmetry. apply Permutation_rev.
Qed.

Lemma StronglySorted_snoc {A} (R : A -> A -> Prop) l x :
  StronglySorted R l -> Forall (fun y => R y x) l -> StronglySorted R (l ++ [x]).
Proof.
  induction 1 as [|y l Hs IH Hall]; simpl; intros Hx.
  - repeat constructor.
  - inversion Hx as [|? ? Hyx Hx']; subst. constructor; [now apply IH|].
    apply Forall_app. split; [assumption | now repeat constructor].
Qed.

Lemma StronglySorted_rev {A} (R : A -> A -> Prop) l :
  StronglySorted R l -> StronglySorted (fun a b => R b a) (rev l).
Proof.
  induction 1 as [|x l Hs IH Hall]; simpl; [constructor|].
  apply StronglySorted_snoc; [assumption|].
  apply Forall_forall. intros y Hy. apply in_rev in Hy.
  rewrite Forall_forall in Hall. now apply Hall.
Qed.

(** The keys read along [desc_argsort] never increase. *)
Lemma desc_argsort_sorted `{Platform} ks :
  StronglySorted (fun a b => na_last_le b a) (take None (desc_argsort ks) ks).
Proof.
  unfold desc_argsort, take. rewrite map_rev. apply StronglySorted_rev.
  rewrite map_map.
  pose proof (argsort_perm (rev ks)) as Hp. rewrite length_rev in Hp.
  rewrite (map_ext_in _ (fun j => nth j (rev ks) None)).
  - apply Sorted_StronglySorted; [exact na_last_le_trans | apply argsort_sorted].
  - intros j Hj. eapply Permutation_in in Hj; [|exact Hp]. apply in_seq in Hj.
    rewrite rev_nth by lia. f_equal. lia.
Qed.

Lemma combine_map_self {A B} (f : A -> B) l :
  combine l (map f l) = map (fun x => (x, f x)) l.
Proof. induction l as [|x l IH]; simpl; [reflexivity | now rewrite IH]. Qed.

Lemma StronglySorted_map {A B} (R : B -> B -> Prop) (g : A -> B) l :
  StronglySorted R (map g l) -> StronglySorted (fun a b => R (g a) (g b)) l.
Proof.
  induction l as [|x l IH]; simpl; intros Hs; [constructor|].
  inversion Hs as [|? ? Hs' Hall]; subst. constructor; [now apply IH|].
  rewrite Forall_map in Hall. exact Hall.
Qed.

(** [value_counts] lists each distinct value once, with the number of its
    occurrences, and the counts never increase down the list. *)
Lemma value_counts_spec `{Platform} {A} (eqb : A -> A -> bool) (xs : list A) :
  Permutation (value_counts eqb xs)
    (map (fun v => (v, occurrences eqb v xs)) (uniques eqb xs)) /\
  StronglySorted (fun a b => snd b <= snd a) (value_counts eqb xs).
Proof.
  unfold value_counts.
  set (values := uniques eqb xs).
  set (counts := map (fun v => occurrences eqb v xs) values).
  set (order := desc_argsort (map Some counts)).
  assert (Htable : combine values counts = map (fun v => (v, occurrences eqb v xs)) values)
    by (unfold counts; apply combine_map_self).
  assert (Hlen : length (combine values counts) = length (map Some counts)).
  { rewrite Htable. unfold counts. now rewrite !length_map. }
  assert (Hperm : Permutation order (seq 0 (length (combine values counts)))).
  { rewrite Hlen. apply desc_argsort_Permutation. }
  pose proof (Permutation_seq_range _ _ Hperm) as Hrange.
  destruct values as [|v0 values'] eqn:Ev.
  - simpl in Hperm. apply Permutation_sym, Permutation_nil in Hperm.
    rewrite Hperm. simpl. split; constructor.
  - set (d := (v0, occurrences eqb v0 xs)).
    rewrite (pick_rows_take d) by assumption.
    split.
    + rewrite <- Htable. now apply take_Permutation.
    + apply (StronglySorted_map (fun a b => na_last_le b a) (fun p => Some (snd p))).
      unfold take. rewrite map_map.
      pose proof (desc_argsort_sorted (map Some counts)) as Hs.
      fold order in Hs. unfold take in Hs.
      erewrite map_ext_in; [exact Hs|].
      intros i Hi. rewrite Forall_forall in Hrange. specialize (Hrange i Hi).
      rewrite Htable in *. rewrite length_map in Hrange.
      rewrite (nth_indep _ None (Some (snd d))) by (unfold counts; now rewrite !length_map).
      unfold counts. rewrite map_map.
      change (Some (snd d)) with ((fun v => Some (occurrences eqb v xs)) v0).
      rewrite map_nth.
      change d with ((fun v => (v, occurrences eqb v xs)) v0). now rewrite map_nth.
Qed.

(** ** The ranking of titles *)

Lemma somes_In {A} (x : A) xs : In x (somes xs) <-> In (Some x) xs.
Proof.
  unfold somes. rewrite in_flat_map. split.
  - intros [[y|] [Hin Hx]]; simpl in Hx; [|contradiction].
    destruct Hx as [->|[]]. exact Hin.
  - intros Hin. exists (Some x). split; [assumption | now left].
Qed.

Lemma In_firstn {A} (x : A) k l : In x (firstn k l) -> In x l.
Proof.
  intros Hin. rewrite <- (firstn_skipn k l). apply in_or_app. now left.
Qed.

Lemma head_firstn {A} n (l : list A) : exists k, head n l = firstn k l.
Proof. unfold head. destruct (0 <=? n); eauto. Qed.

Lemma head_length {A} n (l : list A) :
  0 <= n -> Z.of_nat (length (head n l)) <= n.
Proof.
  intros Hn. unfold head. destruct (Z.leb_spec 0 n); [|lia].
  rewrite length_firstn. lia.
Qed.

Lemma head_all {A} n (l : list A) : Z.of_nat (length l) <= n -> head n l = l.
Proof.
  intros Hn. unfold head. destruct (Z.leb_spec 0 n); [|lia].
  apply firstn_all2. lia.
Qed.

Lemma StronglySorted_app_inv {A} (R : A -> A -> Prop) l1 l2 :
  StronglySorted R (l1 ++ l2) ->
  StronglySorted R l1 /\ forall a b, In a l1 -> In b l2 -> R a b.
Proof.
  induction l1 as [|x l1 IH]; simpl; intros Hs.
  - split; [constructor | intros a b []].
  - inversion Hs as [|? ? Hs' Hall]; subst. destruct (IH Hs') as [Hl1 Hcross].
    split.
    + constructor; [assumption|]. now apply Forall_app in Hall.
    + intros a b [<-|Ha] Hb; [|now apply Hcross].
      rewrite Forall_forall in Hall. apply Hall. apply in_or_app. now right.
Qed.

Lemma total_Permutation {A} (f : A -> Z) l l' :
  Permutation l l' -> total f l = total f l'.
Proof. induction 1; simpl; lia. Qed.

Lemma total_map {A B} (f : B -> Z) (g : A -> B) l :
  total f (map g l) = total (fun x => f (g x)) l.
Proof. induction l as [|x l IH]; simpl; [reflexivity | now rewrite IH]. Qed.

Lemma run_getitem s df frame k :
  nth_error s df = Some frame -> getitem df k s = (get_column k frame, s).
Proof. intros Hdf. unfold getitem, read. now rewrite Hdf. Qed.

Lemma find_top_titles_run `{Platform} s df frame titles top_n :
  nth_error s df = Some frame ->
  get_column "title" frame = Ok (Text titles) ->
  find_top_titles df top_n s
  = (Ok (head top_n (value_counts str_eqb (somes titles))), s).
Proof.
  intros Hdf Htitle. unfold find_top_titles, bind.
  rewrite (run_getitem _ _ _ _ Hdf), Htitle. reflexivity.
Qed.

(** X3.  [find_top_titles] changes nothing and returns a ranking of at most
    [top_n] entries (for [top_n] not negative), of distinct titles, each
    with the exact number of records that have this title, which is at
    least one; records without a title are not counted. *)
Theorem top_titles_are_counted `{Platform}
    (s : store) (df : ref) (frame : DataFrame) (titles : list (option str))
    (top_n : Z) :
  nth_error s df = Some frame ->
  get_column "title" frame = Ok (Text titles) ->
  exists ranking,
    find_top_titles df top_n s = (Ok ranking, s) /\
    (0 <= top_n -> Z.of_nat (length ranking) <= top_n) /\
    NoDup (map fst ranking) /\
    (forall t n, In (t, n) ranking ->
                 In (Some t) titles /\
                 n = occurrences str_eqb t (somes titles) /\
                 1 <= n).
Proof.
  intros Hdf Htitle. eexists. split; [exact (find_top_titles_run _ _ _ _ _ Hdf Htitle)|].
  destruct (value_counts_spec str_eqb (somes titles)) as [Hperm _].
  destruct (head_firstn top_n (value_counts str_eqb (somes titles))) as [k Hk].
  split; [apply head_length|]. rewrite Hk.
  assert (Hnd : NoDup (map fst (value_counts str_eqb (somes titles)))).
  { eapply Permutation_NoDup; [symmetry; apply Permutation_map, Hperm|].
    rewrite map_map. simpl. rewrite map_id. apply uniques_NoDup, str_eqb_eq. }
  split.
  - rewrite <- (firstn_skipn k (value_counts str_eqb (somes titles))) in Hnd.
    rewrite map_app in Hnd. now apply NoDup_app_remove_r in Hnd.
  - intros t n Hin. apply In_firstn in Hin.
    eapply Permutation_in in Hin; [|exact Hperm].
    apply in_map_iff in Hin. destruct Hin as [v [[= -> <-] Hv]].
    apply uniques_In in Hv; [|apply str_eqb_eq].
    split; [now apply somes_In|]. split; [reflexivity|].
    apply occurrences_pos; [apply str_eqb_eq | assumption].
Qed.

(** X4.  The ranking of [find_top_titles] is a top ranking: its counts never
    increase down the list, and no title left out of it has more records
    than a title in it.  When [top_n] is at least the number of distinct
    titles, every title is in it, and the counts add up to the number of
    records with a title. *)
Theorem top_titles_are_the_most_watched `{Platform}
    (s : store) (df : ref) (frame : DataFrame) (titles : list (option str))
    (top_n : Z) :
  nth_error s df = Some frame ->
  get_column "title" frame = Ok (Text titles) ->
  exists ranking,
    find_top_titles df top_n s = (Ok ranking, s) /\
    StronglySorted (fun a b => snd b <= snd a) ranking /\
    (forall t t' n',
        In (Some t) titles -> ~ In t (map fst ranking) -> In (t', n') ranking ->
        occurrences str_eqb t (somes titles) <= n') /\
    (Z.of_nat (length (uniques str_eqb (somes titles))) <= top_n ->
     (forall t, In (Some t) titles -> In t (map fst ranking)) /\
     total snd ranking = Z.of_nat (length (somes titles))).
Proof.
  intros Hdf Htitle. eexists. split; [exact (find_top_titles_run _ _ _ _ _ Hdf Htitle)|].
  destruct (value_counts_spec str_eqb (somes titles)) as [Hperm Hsorted].
  set (vc := value_counts str_eqb (somes titles)) in *.
  assert (Hlisted : forall t, In (Some t) titles ->
                              In (t, occurrences str_eqb t (somes titles)) vc).
  { intros t Ht. eapply Permutation_in; [symmetry; exact Hperm|].
    apply in_map_iff. exists t. split; [reflexivity|].
    apply uniques_In; [apply str_eqb_eq | now apply somes_In]. }
  destruct (head_firstn top_n vc) as [k Hk].
  rewrite <- (firstn_skipn k vc) in Hsorted.
  apply StronglySorted_app_inv in Hsorted. destruct Hsorted as [Hfirst Hcross].
  split; [now rewrite Hk|]. split.
  - rewrite Hk. intros t t' n' Ht Hout Hin.
    specialize (Hlisted t Ht). rewrite <- (firstn_skipn k vc) in Hlisted.
    apply in_app_or in Hlisted. destruct Hlisted as [Hl|Hl].
    + elim Hout. apply in_map_iff. now exists (t, occurrences str_eqb t (somes titles)).
    + exact (Hcross _ _ Hin Hl).
  - intros Hall. rewrite head_all.
    + split.
      * intros t Ht. apply in_map_iff.
        exists (t, occurrences str_eqb t (somes titles)). split; [reflexivity | auto].
      * rewrite (total_Permutation _ _ _ Hperm), total_map. simpl.
        apply total_occurrences, str_eqb_eq.
    + apply Permutation_length in Hperm. rewrite Hperm, length_map. exact Hall.
Qed.

(** ** More on the sessions *)

Lemma get_annotated_date `{Platform} table ks dates :
  get_column "date" table = Ok (Datetime ks) ->
  dates = take None (argsort ks) ks ->
  get_column "date" (annotated (take_frame (argsort ks) table) dates)
  = Ok (Datetime dates).
Proof.
  intros Hdate ->. rewrite get_annotated_other by discriminate.
  now rewrite get_take_frame, Hdate.
Qed.


Lemma select_map_self {A} (p : A -> bool) xs :
  select (map p xs) xs = filter p xs.
Proof.
  unfold select. induction xs as [|x xs IH]; simpl; [reflexivity|].
  destruct (p x); simpl; now rewrite IH.
Qed.

Lemma select_length {A B} (mask : list bool) (xs : list A) (ys : list B) :
  length xs = length ys -> length (select mask xs) = length (select mask ys).
Proof.
  unfold select. revert xs ys. induction mask as [|b mask IH]; intros xs ys Hlen.
  - reflexivity.
  - destruct xs as [|x xs], ys as [|y ys]; try discriminate; [reflexivity|].
    simpl. injection Hlen as Hlen. specialize (IH xs ys Hlen).
    rewrite !length_map in *. destruct b; simpl; now rewrite IH.
Qed.

Lemma select_In {A} (mask : list bool) (xs : list A) j x :
  nth_error mask j = Some true -> nth_error xs j = Some x -> In x (select mask xs).
Proof.
  unfold select. revert xs j. induction mask as [|b mask IH]; intros xs j Hm Hx.
  - destruct j; discriminate.
  - destruct xs as [|x' xs]; [destruct j; discriminate|].
    destruct j as [|j]; simpl in *.
    + injection Hm as ->. injection Hx as ->. now left.
    + destruct b; simpl; [right|]; eapply IH; eassumption.
Qed.


Lemma hours_value d : (hours d == inject_Z d / inject_Z ns_per_hour)%Q.
Proof.
  unfold hours. rewrite !Qred_correct.
  unfold Qeq, Qdiv, Qmult, Qinv, inject_Z. simpl. lia.
Qed.

Lemma hours_nonneg d : 0 <= d -> (0 <= hours d)%Q.
Proof.
  intros Hd. rewrite hours_value.
  unfold Qle, Qdiv, Qmult, Qinv, inject_Z. simpl. lia.
Qed.

Lemma omin_le_omax xs a b : omin xs = Some a -> omax xs = Some b -> a <= b.
Proof.
  unfold omin, omax. revert a b. induction xs as [|[x|] xs IH]; simpl; intros a b.
  - discriminate.
  - destruct (fold_right (pick Z.min) None xs) as [m|] eqn:Em;
      destruct (fold_right (pick Z.max) None xs) as [M|] eqn:EM; simpl;
      intros [= <-] [= <-]; lia.
  - apply IH.
Qed.

Lemma omin_omax_defined xs : omin xs = None <-> omax xs = None.
Proof.
  unfold omin, omax. induction xs as [|[x|] xs IH]; simpl; [tauto | | exact IH].
  destruct (fold_right (pick Z.min) None xs), (fold_right (pick Z.max) None xs);
    simpl; split; discriminate.
Qed.

Lemma nth_error_combine {A B} (l1 : list A) (l2 : list B) j a b :
  nth_error l1 j = Some a -> nth_error l2 j = Some b ->
  nth_error (combine l1 l2) j = Some (a, b).
Proof.
  revert l2 j. induction l1 as [|x l1 IH]; intros l2 j Ha Hb.
  - destruct j; discriminate.
  - destruct l2 as [|y l2]; [destruct j; discriminate|].
    destruct j as [|j]; simpl in *; [congruence | now apply IH].
Qed.


Lemma notna_length c : length (notna c) = col_length c.
Proof. destruct c; simpl; apply length_map. Qed.

Lemma col_length_take_column ix c : col_length (take_column ix c) = length ix.
Proof. destruct c; simpl; apply take_length. Qed.

Lemma nth_map_in_range {A B} (f : A -> B) xs i d d' :
  (i < length xs)%nat -> nth i (map f xs) d' = f (nth i xs d).
Proof.
  intros Hi. rewrite (nth_indep _ d' (f d)) by (now rewrite length_map).
  apply map_nth.
Qed.

Lemma notna_take_column ix c :
  Forall (fun i => (i < col_length c)%nat) ix ->
  notna (take_column ix c) = take false ix (notna c).
Proof.
  intros Hix. rewrite Forall_forall in Hix.
  destruct c; simpl in *; unfold take; rewrite map_map;
    apply map_ext_in; intros i Hi; symmetry;
    first [ now rewrite (nth_map_in_range _ _ _ None) by (apply Hix, Hi)
          | now rewrite (nth_map_in_range _ _ _ false) by (apply Hix, Hi) ].
Qed.

Lemma filter_Permutation {A} (p : A -> bool) l l' :
  Permutation l l' -> Permutation (filter p l) (filter p l').
Proof.
  induction 1 as [|x l l' _ IH|x y l|l l' l'' _ IH1 _ IH2]; simpl.
  - constructor.
  - destruct (p x); [now constructor | assumption].
  - destruct (p x), (p y); try reflexivity. apply perm_swap.
  - now transitivity (filter p l').
Qed.

Lemma total_agg_count c (groups : list (list nat)) :
  total (fun rows => agg_count c rows) groups
  = Z.of_nat (length (filter (fun b : bool => b) (take false (concat groups) (notna c)))).
Proof.
  induction groups as [|rows groups IH]; simpl; [reflexivity|].
  rewrite IH. unfold agg_count, take. rewrite map_app, filter_app, length_app. lia.
Qed.


Lemma group_keys_NoDup ks : NoDup (group_keys ks).
Proof.
  unfold group_keys.
  eapply Permutation_NoDup; [symmetry; apply sort_keys_Permutation|].
  apply NoDup_nodup.
Qed.

Lemma cumsum_from_closed acc bs k j :
  In k (cumsum_from acc bs) -> acc < j <= k -> In j (cumsum_from acc bs).
Proof.
  revert acc. induction bs as [|b bs IH]; intros acc; simpl; [tauto|].
  intros [Hk|Hk] Hj.
  - left. destruct b; lia.
  - destruct (Z.eq_dec j (acc + (if b then 1 else 0))) as [->|Hne]; [now left|].
    right. apply IH; [assumption|]. destruct b; lia.
Qed.

Lemma session_ids_closed dates k j :
  In k (session_ids dates) -> 0 <= j <= k -> In j (session_ids dates).
Proof.
  intros Hk Hj. destruct (Z.eq_dec j 0) as [->|Hne].
  - destruct dates as [|d dates]; [contradiction|].
    eapply nth_error_In, session_ids_first.
  - apply (cumsum_from_closed 0 _ k); [assumption | lia].
Qed.

Lemma session_ids_nonneg dates k : In k (session_ids dates) -> 0 <= k.
Proof.
  intros Hk. pose proof (cumsum_from_lower 0 (new_sessions dates)) as Hall.
  rewrite Forall_forall in Hall. now apply Hall.
Qed.

(** A strictly ascending list of integers that starts at [a] and has no
    gap is [a, a+1, ...]. *)
Lemma ascending_without_gap l : forall a,
  StronglySorted Z.lt l ->
  (forall k, In k l -> a <= k) ->
  (forall k j, In k l -> a <= j <= k -> In j l) ->
  l = map (fun i => a + Z.of_nat i) (seq 0 (length l)).
Proof.
  induction l as [|x l IH]; intros a Hs Hlow Hclosed; [reflexivity|].
  inversion Hs as [|? ? Hs' Hall]; subst. rewrite Forall_forall in Hall.
  assert (x = a) as ->.
  { assert (Ha : In a (x :: l)).
    { apply (Hclosed x); [now left|]. specialize (Hlow x (or_introl eq_refl)). lia. }
    destruct Ha as [Ha|Ha]; [assumption|].
    specialize (Hall a Ha). specialize (Hlow x (or_introl eq_refl)). lia. }
  simpl. f_equal; [lia|].
  rewrite <- seq_shift, map_map.
  rewrite (IH (a + 1)) at 1; try assumption.
  - apply map_ext. intros i. lia.
  - intros k Hk. specialize (Hall k Hk). lia.
  - intros k j Hk Hj. destruct (Hclosed k j (or_intror Hk)) as [Hj'|Hj']; [lia | lia | assumption].
Qed.


(** ** Sessions are separated *)

Lemma StronglySorted_nth_error {A} (R : A -> A -> Prop) l i j x y :
  StronglySorted R l -> (i < j)%nat ->
  nth_error l i = Some x -> nth_error l j = Some y -> R x y.
Proof.
  intros Hs. revert i j. induction Hs as [|a l Hs IH Hall]; intros i j Hij Hi Hj.
  - destruct i; discriminate.
  - destruct j as [|j]; [lia|]. destruct i as [|i]; simpl in *.
    + injection Hi as ->. rewrite Forall_forall in Hall.
      eapply Hall, nth_error_In, Hj.
    + apply (IH i j); [lia | assumption | assumption].
Qed.

Lemma session_ids_monotone dates i j k k' :
  (i <= j)%nat ->
  nth_error (session_ids dates) i = Some k ->
  nth_error (session_ids dates) j = Some k' -> k <= k'.
Proof.
  intros Hij Hi Hj. destruct (Nat.eq_dec i j) as [->|Hne].
  - assert (k = k') by congruence. lia.
  - eapply (StronglySorted_nth_error Z.le _ i j); try eassumption; [|lia].
    apply cumsum_from_sorted.
Qed.

(** Where the session id goes up, the time between the two records exceeds
    the threshold. *)
Lemma session_ids_boundary dates m k :
  nth_error (session_ids dates) m = Some k ->
  nth_error (session_ids dates) (S m) = Some (k + 1) ->
  exists a b,
    nth_error dates m = Some (Some a) /\ nth_error dates (S m) = Some (Some b) /\
    binge_threshold < b - a.
Proof.
  intros Hm Hsm.
  assert (Hlen : (S m < length dates)%nat).
  { rewrite <- session_ids_length. apply nth_error_Some. congruence. }
  destruct (nth_error dates m) as [a|] eqn:Ha;
    [|apply nth_error_None in Ha; lia].
  destruct (nth_error dates (S m)) as [b|] eqn:Hb;
    [|apply nth_error_None in Hb; lia].
  pose proof (session_ids_step dates m a b k Ha Hb Hm) as Hstep.
  rewrite Hsm in Hstep. injection Hstep as Hstep.
  destruct a as [a|], b as [b|]; simpl in Hstep; try lia.
  exists a, b. repeat split.
  destruct (Z.ltb_spec binge_threshold (b - a)); [assumption | lia].
Qed.

Lemma boundary_between dates : forall j i k,
  (i < j)%nat ->
  nth_error (session_ids dates) i = Some k ->
  nth_error (session_ids dates) j = Some (k + 1) ->
  exists m a b,
    (i <= m < j)%nat /\
    nth_error dates m = Some (Some a) /\ nth_error dates (S m) = Some (Some b) /\
    binge_threshold < b - a.
Proof.
  induction j as [|j IH]; intros i k Hij Hi Hj; [lia|].
  assert (Hlen : (j < length (session_ids dates))%nat).
  { assert (nth_error (session_ids dates) (S j) <> None) as Hn by congruence.
    apply nth_error_Some in Hn. lia. }
  assert (exists k', nth_error (session_ids dates) j = Some k') as [k' Hk'].
  { destruct (nth_error (session_ids dates) j) as [k'|] eqn:Hk'; [eauto|].
    apply nth_error_None in Hk'. lia. }
  assert (k <= k') by (eapply (session_ids_monotone dates i j); eauto; lia).
  assert (k' <= k + 1) by (eapply (session_ids_monotone dates j (S j)); eauto).
  destruct (Z.eq_dec k' k) as [->|Hne].
  - destruct (session_ids_boundary dates j k Hk' Hj) as (a & b & Ha & Hb & Hgap).
    exists j, a, b. repeat split; try assumption; lia.
  - assert (k' = k + 1) as -> by lia.
    assert (i <> j) by (intros ->; rewrite Hi in Hk'; injection Hk'; lia).
    destruct (IH i k ltac:(lia) Hi Hk') as (m & a & b & Hm & Ha & Hb & Hgap).
    exists m, a, b. repeat split; try assumption; lia.
Qed.

(** Records of consecutive sessions are more than the threshold apart. *)
Lemma consecutive_sessions_apart dates i j k x y :
  StronglySorted na_last_le dates ->
  nth_error (session_ids dates) i = Some k ->
  nth_error (session_ids dates) j = Some (k + 1) ->
  nth_error dates i = Some (Some x) ->
  nth_error dates j = Some (Some y) ->
  binge_threshold < y - x.
Proof.
  intros Hs Hi Hj Hx Hy.
  assert (Hij : (i < j)%nat).
  { destruct (Nat.lt_ge_cases i j) as [Hlt|Hge]; [assumption|].
    pose proof (session_ids_monotone dates j i _ _ Hge Hj Hi). lia. }
  destruct (boundary_between dates j i k Hij Hi Hj) as (m & a & b & Hm & Ha & Hb & Hgap).
  assert (x <= a).
  { destruct (Nat.eq_dec i m) as [->|Hne]; [rewrite Hx in Ha; injection Ha; lia|].
    apply (StronglySorted_nth_error _ _ i m _ _ Hs ltac:(lia) Hx Ha). }
  assert (b <= y).
  { destruct (Nat.eq_dec (S m) j) as [<-|Hne]; [rewrite Hy in Hb; injection Hb; lia|].
    apply (StronglySorted_nth_error _ _ (S m) j _ _ Hs ltac:(lia) Hb Hy). }
  lia.
Qed.

Lemma omax_In xs e : omax xs = Some e -> In (Some e) xs.
Proof.
  unfold omax. revert e. induction xs as [|[x|] xs IH]; simpl; intros e.
  - discriminate.
  - destruct (fold_right (pick Z.max) None xs) as [m|] eqn:Em; simpl; intros [= <-].
    + destruct (Z.max_spec x m) as [[_ ->]|[_ ->]]; [right; now apply IH | now left].
    + now left.
  - intros He. right. now apply IH.
Qed.

Lemma omin_In xs e : omin xs = Some e -> In (Some e) xs.
Proof.
  unfold omin. revert e. induction xs as [|[x|] xs IH]; simpl; intros e.
  - discriminate.
  - destruct (fold_right (pick Z.min) None xs) as [m|] eqn:Em; simpl; intros [= <-].
    + destruct (Z.min_spec x m) as [[_ ->]|[_ ->]]; [now left | right; now apply IH].
    + now left.
  - intros He. right. now apply IH.
Qed.

Lemma nth_Some_nth_error {A} (l : list (option A)) i x :
  nth i l None = Some x -> nth_error l i = Some (Some x).
Proof.
  revert i. induction l as [|y l IH]; intros [|i]; simpl; try discriminate.
  - now intros ->.
  - apply IH.
Qed.

Lemma In_combine_seq {A} (l : list A) : forall a i x,
  In (i, x) (combine (seq a (length l)) l) -> (a <= i)%nat /\ nth_error l (i - a) = Some x.
Proof.
  induction l as [|y l IH]; intros a i x; simpl; [tauto|].
  intros [[= <- <-]|Hin].
  - rewrite Nat.sub_diag. auto.
  - destruct (IH (S a) i x Hin) as [Hle Hnth]. split; [lia|].
    replace (i - a)%nat with (S (i - S a)) by lia. exact Hnth.
Qed.

(** The rows of a group have the key of the group. *)
Lemma positions_of_key k ks i :
  In i (positions_of k ks) -> nth_error ks i = Some (Some k).
Proof.
  unfold positions_of. intros Hin. apply in_map_iff in Hin.
  destruct Hin as [[i' key] [Hi Hin]]. simpl in Hi. subst i'.
  apply filter_In in Hin. destruct Hin as [Hin Hkey]. simpl in Hkey.
  apply In_combine_seq in Hin. destruct Hin as [_ Hnth].
  rewrite Nat.sub_0_r in Hnth. rewrite Hnth.
  destruct key as [k'|]; [|discriminate]. simpl in Hkey.
  apply Z.eqb_eq in Hkey. now subst.
Qed.

Lemma session_row_of_date dates k e :
  In (Some e) (take None (positions_of k (map Some (session_ids dates))) dates) ->
  exists i, nth_error (session_ids dates) i = Some k /\
            nth_error dates i = Some (Some e).
Proof.
  unfold take. intros Hin. apply in_map_iff in Hin. destruct Hin as [i [Hnth Hi]].
  exists i. split.
  - apply positions_of_key in Hi. rewrite nth_error_map in Hi.
    destruct (nth_error (session_ids dates) i); simpl in Hi; congruence.
  - now apply nth_Some_nth_error.
Qed.


(** ** The reports *)

Lemma read_only_read {A} r (f : DataFrame -> result A) : read_only (read r f).
Proof. intros s. unfold read. now destruct (nth_error s r). Qed.

Lemma read_only_lift {A} (r : result A) : read_only (lift r).
Proof. intros s. reflexivity. Qed.

Lemma read_only_ret {A} (a : A) : read_only (ret a).
Proof. intros s. reflexivity. Qed.

Lemma read_only_bind {A B} (m : M A) (k : A -> M B) :
  read_only m -> (forall a, read_only (k a)) -> read_only (bind m k).
Proof.
  intros Hm Hk s. unfold bind. specialize (Hm s).
  destruct (m s) as [[a|e] s1]; simpl in *; subst s1; [apply Hk | reflexivity].
Qed.

Ltac read_only_body :=
  repeat first
    [ apply read_only_bind; [|intros ?]
    | apply read_only_read
    | apply read_only_lift
    | apply read_only_ret ].

(** X11.  The reports never change or create a frame: after
    [show_basic_stats], [find_top_titles] or [viewing_timeline], returning
    or raising, the store is what it was. *)
Theorem reports_are_read_only `{Platform} (s : store) (df : ref) (top_n : Z) :
  snd (show_basic_stats df s) = s /\
  snd (find_top_titles df top_n s) = s /\
  snd (viewing_timeline df s) = s.
Proof.
  repeat split.
  - revert s. change (read_only (show_basic_stats df)).
    unfold show_basic_stats, getitem. read_only_body.
  - revert s. change (read_only (find_top_titles df top_n)).
    unfold find_top_titles, getitem. read_only_body.
  - revert s. change (read_only (viewing_timeline df)).
    unfold viewing_timeline, getitem. read_only_body.
Qed.

Lemma omin_None xs : omin xs = None <-> forall t, ~ In (Some t) xs.
Proof.
  unfold omin. induction xs as [|[x|] xs IH]; simpl.
  - split; [intros _ t [] | reflexivity].
  - split.
    + destruct (fold_right (pick Z.min) None xs); discriminate.
    + intros Hn. elim (Hn x). now left.
  - rewrite IH. split.
    + intros Hn t [Ht|Ht]; [discriminate | exact (Hn t Ht)].
    + intros Hn t Ht. apply (Hn t). now right.
Qed.

Lemma date_of_monotone a b : a <= b -> date_of a <= date_of b.
Proof. intros Hab. unfold date_of. apply Z.div_le_mono; [reflexivity | assumption]. Qed.

Lemma somes_length {A} (xs : list (option A)) : (length (somes xs) <= length xs)%nat.
Proof.
  unfold somes. induction xs as [|[x|] xs IH]; simpl; lia.
Qed.

Lemma nodup_length_le (l : list Z) : (length (nodup Z.eq_dec l) <= length l)%nat.
Proof.
  induction l as [|x l IH]; simpl; [lia|].
  destruct (in_dec Z.eq_dec x l); simpl; lia.
Qed.

Lemma nodup_nonempty (l : list Z) x : In x l -> (1 <= length (nodup Z.eq_dec l))%nat.
Proof.
  intros Hin. apply (nodup_In Z.eq_dec) in Hin.
  destruct (nodup Z.eq_dec l); [contradiction | simpl; lia].
Qed.

Lemma count_true_negb bs :
  count_true bs + count_true (map negb bs) = Z.of_nat (length bs).
Proof.
  unfold count_true. induction bs as [|[] bs IH]; simpl length in *; simpl filter; simpl length; lia.
Qed.

(** The run of [show_basic_stats] on a frame with a datetime column [date]
    and boolean columns [is_movie] and [is_tv_show]. *)
Lemma show_basic_stats_run s df frame ts ms tvs :
  nth_error s df = Some frame ->
  get_column "date" frame = Ok (Datetime ts) ->
  get_column "is_movie" frame = Ok (Boolean ms) ->
  get_column "is_tv_show" frame = Ok (Boolean tvs) ->
  show_basic_stats df s
  = (match omin ts, omax ts with
     | Some a, Some b =>
         let views := Z.of_nat (len frame) in
         let days := Z.of_nat (length (nodup Z.eq_dec (map date_of (somes ts)))) in
         rmap (fun average =>
                 mkBasicStats views (date_of a, date_of b) days average
                   (count_true ms) (count_true tvs)
                   (percent (count_true ms) views) (percent (count_true tvs) views))
           (truediv views days)
     | _, _ => Err NaTStrftime
     end, s).
Proof.
  intros Hdf Hdate Hmovie Htv. unfold show_basic_stats, bind, lift, ret.
  unfold read at 1. rewrite Hdf.
  rewrite !(run_getitem _ _ _ _ Hdf), Hdate, Hmovie, Htv. simpl.
  destruct (omin ts) as [a|] eqn:Ea; simpl.
  - destruct (omax ts) as [b|] eqn:Eb; simpl.
    + destruct (truediv _ _); reflexivity.
    + apply omin_omax_defined in Eb. congruence.
  - reflexivity.
Qed.

(** X12.  [show_basic_stats] needs a date.  On a frame with a datetime
    column [date] and boolean columns [is_movie] and [is_tv_show], it
    raises when no record has a timestamp (so also on a frame with no row);
    with at least one timestamp it returns, and then the number of views is
    the number of rows, the first day of the range is no later than the
    last, there are between one day with activity and as many as there are
    rows with a timestamp at most, the average is the views per active day,
    and the numbers of movies and of episodes are the numbers of [True]
    cells of the two columns. *)
Theorem report_needs_a_date
    (s : store) (df : ref) (frame : DataFrame)
    (ts : list (option Z)) (ms tvs : list bool) :
  nth_error s df = Some frame ->
  get_column "date" frame = Ok (Datetime ts) ->
  get_column "is_movie" frame = Ok (Boolean ms) ->
  get_column "is_tv_show" frame = Ok (Boolean tvs) ->
  ((forall t, ~ In (Some t) ts) ->
   show_basic_stats df s = (Err NaTStrftime, s)) /\
  (forall t, In (Some t) ts ->
     exists stats,
       show_basic_stats df s = (Ok stats, s) /\
       total_views stats = Z.of_nat (len frame) /\
       fst (date_range stats) <= snd (date_range stats) /\
       1 <= active_days stats <= Z.of_nat (length (somes ts)) /\
       (average_views_per_day stats
        == inject_Z (total_views stats) / inject_Z (active_days stats))%Q /\
       movies stats = count_true ms /\
       tv_shows stats = count_true tvs).
Proof.
  intros Hdf Hdate Hmovie Htv.
  rewrite (show_basic_stats_run s df frame ts ms tvs Hdf Hdate Hmovie Htv).
  split.
  - intros Hnone. apply (proj2 (omin_None ts)) in Hnone. now rewrite Hnone.
  - intros t Ht.
    destruct (omin ts) as [a|] eqn:Ea;
      [|elim (proj1 (omin_None ts) Ea t Ht)].
    destruct (omax ts) as [b|] eqn:Eb;
      [|apply omin_omax_defined in Eb; congruence].
    set (days := Z.of_nat (length (nodup Z.eq_dec (map date_of (somes ts))))).
    assert (Hdays : 1 <= days <= Z.of_nat (length (somes ts))).
    { unfold days. split.
      - assert (In (date_of t) (map date_of (somes ts))) as Hin
          by (apply in_map; now apply somes_In).
        apply nodup_nonempty in Hin. lia.
      - pose proof (nodup_length_le (map date_of (somes ts))) as Hle.
        rewrite length_map in Hle. lia. }
    cbv zeta. fold days. unfold truediv.
    destruct (Z.eqb_spec days 0) as [Hz|_]; [lia|]. cbn [rmap].
    eexists. split; [reflexivity|].
    cbn [total_views date_range active_days average_views_per_day
         movies tv_shows fst snd].
    split; [reflexivity|].
    split; [apply date_of_monotone; eapply omin_le_omax; eassumption|].
    split; [assumption|].
    split; [apply Qred_correct|]. split; reflexivity.
Qed.

(** ** The normalizer, run forward *)

Lemma labels_rename_if old new df :
  labels (if has_column old df then rename old new df else df)
  = map (fun l => if String.eqb l old then new else l) (labels df).
Proof.
  destruct (has_column old df) eqn:E.
  - unfold labels, rename. simpl. rewrite !map_map. apply map_ext.
    intros p. unfold labelled. now destruct (String.eqb (fst p) old).
  - unfold labels. rewrite map_map. apply map_ext_in. intros p Hp.
    destruct (String.eqb_spec (fst p) old) as [He|]; [|reflexivity].
    assert (has_column old df = true); [|congruence].
    apply has_column_In. rewrite <- He. unfold labels. now apply in_map.
Qed.

Lemma labels_standardize table :
  labels (standardize table) = map canonical_label (labels table).
Proof.
  unfold standardize, canonical_label. generalize column_mapping.
  intros mapping. revert table.
  induction mapping as [|[o n] mapping IH]; intros table; simpl.
  - now rewrite map_id.
  - rewrite IH, labels_rename_if, map_map. reflexivity.
Qed.

Lemma clean_data_alone_no_date `{Platform} table e :
  get_column "date" (standardize table) = Err e ->
  clean_data 0 [table] = (Err e, [table; standardize table]).
Proof.
  intros Hdate. unfold clean_data.
  unfold bind at 1. rewrite (run_copy [table] 0 table eq_refl).
  cbn [length app].
  unfold bind at 1.
  rewrite (rename_loop column_mapping 1 [table; table] table eq_refl).
  fold (standardize table). cbn [update].
  unfold bind at 1. unfold getitem at 1. unfold read. cbn [nth_error].
  now rewrite Hdate.
Qed.

Ltac skip_sets :=
  repeat match goal with
         | |- context [get_column ?k (set_column ?k' ?c ?d)] =>
             rewrite (get_set_other k k' c d) by (intro; discriminate)
         end.

Lemma clean_data_alone_returns `{Platform} table date ts titles :
  get_column "date" (standardize table) = Ok date ->
  to_datetime date = Ok (Datetime ts) ->
  get_column "title" (standardize table) = Ok (Text titles) ->
  get_column "is_movie" (normalized (standardize table) ts titles)
  = Ok (Boolean (is_movie_flags titles)) ->
  clean_data 0 [table] = (Ok 1%nat, [table; normalized (standardize table) ts titles]).
Proof.
  intros Hdate Hparse Htitle Hmovie. unfold clean_data.
  unfold bind at 1. rewrite (run_copy [table] 0 table eq_refl).
  cbn [length app].
  unfold bind at 1.
  rewrite (rename_loop column_mapping 1 [table; table] table eq_refl).
  fold (standardize table). cbn [update].
  unfold getitem, setitem, read, modify, lift, ret, bind.
  cbn [nth_error update].
  rewrite Hdate, Hparse.
  pose proof (get_set_same_of_get "date" (Datetime ts) date _ Hdate) as Hdate'.
  cbn [nth_error update]. skip_sets. rewrite Hdate'.
  cbn [dt_year dt_field nth_error update]. skip_sets. rewrite Hdate'.
  cbn [dt_month dt_field nth_error update]. skip_sets. rewrite Hdate'.
  cbn [dt_day_name nth_error update]. skip_sets. rewrite Hdate'.
  cbn [dt_hour dt_field nth_error update]. skip_sets. rewrite Htitle.
  cbn [str_contains nth_error update].
  unfold normalized in Hmovie. rewrite get_set_other in Hmovie by discriminate.
  fold (is_movie_flags titles). rewrite Hmovie.
  cbn [invert nth_error update]. reflexivity.
Qed.

Lemma clean_data_alone_no_title `{Platform} table date ts e :
  get_column "date" (standardize table) = Ok date ->
  to_datetime date = Ok (Datetime ts) ->
  get_column "title" (standardize table) = Err e ->
  fst (clean_data 0 [table]) = Err e.
Proof.
  intros Hdate Hparse Htitle. unfold clean_data.
  unfold bind at 1. rewrite (run_copy [table] 0 table eq_refl).
  cbn [length app].
  unfold bind at 1.
  rewrite (rename_loop column_mapping 1 [table; table] table eq_refl).
  fold (standardize table). cbn [update].
  unfold getitem, setitem, read, modify, lift, ret, bind.
  cbn [nth_error update].
  rewrite Hdate, Hparse.
  pose proof (get_set_same_of_get "date" (Datetime ts) date _ Hdate) as Hdate'.
  cbn [nth_error update]. skip_sets. rewrite Hdate'.
  cbn [dt_year dt_field nth_error update]. skip_sets. rewrite Hdate'.
  cbn [dt_month dt_field nth_error update]. skip_sets. rewrite Hdate'.
  cbn [dt_day_name nth_error update]. skip_sets. rewrite Hdate'.
  cbn [dt_hour dt_field nth_error update]. skip_sets. rewrite Htitle.
  reflexivity.
Qed.

(** The outcome of [clean_data] from any store, from its outcome on the
    table alone. *)
Lemma clean_data_outcome `{Platform} s df table :
  nth_error s df = Some table ->
  fst (clean_data df s)
  = match fst (clean_data 0 [table]) with
    | Ok _ => Ok (length s)
    | Err e => Err e
    end.
Proof.
  intros Hdf.
  destruct (clean_data_relocates s df table Hdf)
    as [l [(k & Hrun & Hcanon) | (e & Hrun & Hcanon)]];
    rewrite Hrun, Hcanon; simpl; [|reflexivity].
  destruct (clean_data_alone _ _ _ Hcanon) as (_ & _ & _ & _ & _ & _ & _ & Hk & _).
  injection Hk as ->. f_equal. lia.
Qed.

Lemma clean_data_returns `{Platform} s df table date ts titles :
  nth_error s df = Some table ->
  get_column "date" (standardize table) = Ok date ->
  to_datetime date = Ok (Datetime ts) ->
  get_column "title" (standardize table) = Ok (Text titles) ->
  get_column "is_movie" (normalized (standardize table) ts titles)
  = Ok (Boolean (is_movie_flags titles)) ->
  clean_data df s = (Ok (length s), s ++ [normalized (standardize table) ts titles]).
Proof.
  intros Hdf Hdate Hparse Htitle Hmovie.
  pose proof (clean_data_alone_returns table date ts titles Hdate Hparse Htitle Hmovie)
    as Halone.
  destruct (clean_data_relocates s df table Hdf)
    as [l [(k & Hrun & Hcanon) | (e & Hrun & Hcanon)]];
    rewrite Halone in Hcanon; [|discriminate].
  injection Hcanon as Hk Hl. subst l. rewrite Hrun. f_equal. f_equal. lia.
Qed.

Lemma main_raises_when_clean_data_does `{Platform} table s e :
  fst (clean_data 0 [table]) = Err e ->
  fst (main (Some table) s) = Err e.
Proof.
  intros Hclean.
  pose proof (clean_data_outcome (s ++ [table]) (length s) table
                (nth_error_first_new s [] table)) as Hout.
  rewrite Hclean in Hout.
  destruct (clean_data (length s) (s ++ [table])) as [r l] eqn:Hrun.
  simpl in Hout. subst r.
  now rewrite (main_raises_with_clean_data _ _ _ _ Hrun).
Qed.

Ltac case_labels :=
  repeat match goal with
         | |- context [String.eqb ?a ?b] =>
             destruct (String.eqb_spec a b); subst; cbn [fold_left]
         | H : context [String.eqb ?a ?b] |- _ =>
             destruct (String.eqb_spec a b); subst; cbn [fold_left] in H
         end.

Lemma canonical_label_date l :
  canonical_label l = "date" <-> l = "Date" \/ l = "date".
Proof.
  unfold canonical_label, column_mapping. cbn [fold_left].
  split.
  - intros Hl. case_labels; auto; try discriminate.
  - intros [->| ->]; reflexivity.
Qed.

Lemma canonical_label_title l :
  canonical_label l = "title" <-> l = "Title" \/ l = "title".
Proof.
  unfold canonical_label, column_mapping. cbn [fold_left].
  split.
  - intros Hl. case_labels; auto; try discriminate.
  - intros [->| ->]; reflexivity.
Qed.

Lemma get_column_absent k df : ~ In k (labels df) -> get_column k df = Err (KeyError k).
Proof.
  intros Hk. unfold get_column. now rewrite filter_labelled_absent.
Qed.

Lemma standardize_lacks table k :
  (forall l, In l (labels table) -> canonical_label l <> k) ->
  get_column k (standardize table) = Err (KeyError k).
Proof.
  intros Hk. apply get_column_absent. rewrite labels_standardize.
  intros Hin. apply in_map_iff in Hin. destruct Hin as [l [Hl Hin]].
  exact (Hk l Hin Hl).
Qed.

Lemma filter_labelled_length k cols :
  length (filter (labelled k) cols)
  = length (filter (fun l => String.eqb l k) (map fst cols)).
Proof.
  induction cols as [|p cols IH]; simpl; [reflexivity|].
  unfold labelled at 1. destruct (String.eqb (fst p) k); simpl; now rewrite IH.
Qed.

Lemma In_filter_length (k : string) (l : list string) (f : string -> bool) :
  In k l -> f k = true -> (1 <= length (filter f l))%nat.
Proof.
  intros Hin Hf. assert (Hk : In k (filter f l)) by (apply filter_In; auto).
  destruct (filter f l); [contradiction | simpl; lia].
Qed.

Lemma filter_either_length (f g : string -> bool) (l : list string) :
  (forall x, f x = true -> g x = true -> False) ->
  (length (filter f l) + length (filter g l)
   <= length (filter (fun x => f x || g x) l))%nat.
Proof.
  intros Hfg. induction l as [|x l IH]; simpl; [lia|].
  destruct (f x) eqn:Ef, (g x) eqn:Eg; simpl; try lia.
  elim (Hfg x Ef Eg).
Qed.

Lemma filter_length_le (f g : string -> bool) (l : list string) :
  (forall x, f x = true -> g x = true) ->
  (length (filter f l) <= length (filter g l))%nat.
Proof.
  intros Hfg. induction l as [|x l IH]; simpl; [lia|].
  destruct (f x) eqn:Ef.
  - rewrite (Hfg x Ef). simpl. lia.
  - destruct (g x); simpl; lia.
Qed.

Lemma get_column_several k df :
  (2 <= length (filter (fun l => String.eqb l k) (labels df)))%nat ->
  get_column k df = Err (NotASeries k).
Proof.
  unfold labels. rewrite <- filter_labelled_length. unfold get_column.
  destruct (filter (labelled k) (columns df)) as [|[k' c'] [|? ?]]; simpl; try lia.
  reflexivity.
Qed.

Lemma standardize_merges table a b k :
  a <> b -> canonical_label a = k -> canonical_label b = k ->
  In a (labels table) -> In b (labels table) ->
  get_column k (standardize table) = Err (NotASeries k).
Proof.
  intros Hab Ha Hb Hina Hinb. apply get_column_several.
  rewrite labels_standardize.
  assert (Hmap : forall (f : string -> bool) (g : string -> string) l,
             length (filter f (map g l)) = length (filter (fun x => f (g x)) l)).
  { intros f g l. induction l as [|x l IH]; simpl; [reflexivity|].
    destruct (f (g x)); simpl; now rewrite IH. }
  rewrite Hmap.
  pose proof (In_filter_length a _ (String.eqb a) Hina (String.eqb_refl a)) as H1.
  pose proof (In_filter_length b _ (String.eqb b) Hinb (String.eqb_refl b)) as H2.
  pose proof (filter_either_length (String.eqb a) (String.eqb b) (labels table)) as H3.
  assert (Hle : (length (filter (fun x => String.eqb a x || String.eqb b x) (labels table))
                 <= length (filter (fun x => String.eqb (canonical_label x) k) (labels table)))%nat).
  { apply filter_length_le. intros x Hx. apply String.eqb_eq.
    apply orb_true_iff in Hx. destruct Hx as [Hx|Hx];
      apply String.eqb_eq in Hx; now subst x. }
  assert (Hne : forall x, String.eqb a x = true -> String.eqb b x = true -> False).
  { intros x Hax Hbx. apply String.eqb_eq in Hax, Hbx. congruence. }
  specialize (H3 Hne). lia.
Qed.

(** X13.  The date and the title are required.  On a table with neither a
    column [Date] nor a column [date], [clean_data] raises the [KeyError]
    of the label [date]; on a table whose date column is read and parsed
    and that has neither [Title] nor [title], the [KeyError] of [title].
    [main] ends with the same exception. *)
Theorem missing_column_is_fatal `{Platform}
    (s : store) (df : ref) (table : DataFrame) :
  nth_error s df = Some table ->
  (~ In "Date" (labels table) -> ~ In "date" (labels table) ->
   fst (clean_data df s) = Err (KeyError "date") /\
   fst (main (Some table) s) = Err (KeyError "date")) /\
  (forall date ts,
      get_column "date" (standardize table) = Ok date ->
      to_datetime date = Ok (Datetime ts) ->
      ~ In "Title" (labels table) -> ~ In "title" (labels table) ->
      fst (clean_data df s) = Err (KeyError "title") /\
      fst (main (Some table) s) = Err (KeyError "title")).
Proof.
  intros Hdf. split.
  - intros HDate Hdate.
    assert (Hget : get_column "date" (standardize table) = Err (KeyError "date")).
    { apply standardize_lacks. intros l Hl Hc.
      apply canonical_label_date in Hc. destruct Hc as [->| ->]; contradiction. }
    pose proof (clean_data_alone_no_date table _ Hget) as Halone.
    apply (f_equal fst) in Halone. simpl in Halone.
    split.
    + now rewrite (clean_data_outcome s df table Hdf), Halone.
    + now apply main_raises_when_clean_data_does.
  - intros date ts Hdate Hparse HTitle Htitle.
    assert (Hget : get_column "title" (standardize table) = Err (KeyError "title")).
    { apply standardize_lacks. intros l Hl Hc.
      apply canonical_label_title in Hc. destruct Hc as [->| ->]; contradiction. }
    pose proof (clean_data_alone_no_title table date ts _ Hdate Hparse Hget) as Halone.
    split.
    + now rewrite (clean_data_outcome s df table Hdf), Halone.
    + now apply main_raises_when_clean_data_does.
Qed.

(** X14.  A table that has a column under both spellings is refused.  With
    [Date] and [date] both present, the renaming leaves two columns
    labelled [date], [clean_df['date']] is a frame and not a series, and
    [clean_data] raises; so with [Title] and [title], once the date is
    read and parsed.  [main] ends with the same exception. *)
Theorem both_spellings_are_refused `{Platform}
    (s : store) (df : ref) (table : DataFrame) :
  nth_error s df = Some table ->
  (In "Date" (labels table) -> In "date" (labels table) ->
   fst (clean_data df s) = Err (NotASeries "date") /\
   fst (main (Some table) s) = Err (NotASeries "date")) /\
  (forall date ts,
      get_column "date" (standardize table) = Ok date ->
      to_datetime date = Ok (Datetime ts) ->
      In "Title" (labels table) -> In "title" (labels table) ->
      fst (clean_data df s) = Err (NotASeries "title") /\
      fst (main (Some table) s) = Err (NotASeries "title")).
Proof.
  intros Hdf. split.
  - intros HDate Hdate.
    assert (Hget : get_column "date" (standardize table) = Err (NotASeries "date")).
    { apply (standardize_merges table "Date" "date");
        [discriminate | reflexivity | reflexivity | assumption | assumption]. }
    pose proof (clean_data_alone_no_date table _ Hget) as Halone.
    apply (f_equal fst) in Halone. simpl in Halone.
    split.
    + now rewrite (clean_data_outcome s df table Hdf), Halone.
    + now apply main_raises_when_clean_data_does.
  - intros date ts Hdate Hparse HTitle Htitle.
    assert (Hget : get_column "title" (standardize table) = Err (NotASeries "title")).
    { apply (standardize_merges table "Title" "title");
        [discriminate | reflexivity | reflexivity | assumption | assumption]. }
    pose proof (clean_data_alone_no_title table date ts _ Hdate Hparse Hget) as Halone.
    split.
    + now rewrite (clean_data_outcome s df table Hdf), Halone.
    + now apply main_raises_when_clean_data_does.
Qed.

Lemma NoDup_labels_normalized x ts titles :
  NoDup (labels x) -> NoDup (labels (normalized x ts titles)).
Proof.
  intros Hnd. unfold normalized. now repeat apply NoDup_labels_set_column.
Qed.

Lemma get_normalized_is_movie x ts titles :
  NoDup (labels x) ->
  get_column "is_movie" (normalized x ts titles) = Ok (Boolean (is_movie_flags titles)).
Proof.
  intros Hnd. unfold normalized. rewrite get_set_other by discriminate.
  apply get_set_same. now repeat apply NoDup_labels_set_column.
Qed.

Lemma get_normalized_is_tv_show x ts titles :
  NoDup (labels x) ->
  get_column "is_tv_show" (normalized x ts titles)
  = Ok (Boolean (map negb (is_movie_flags titles))).
Proof.
  intros Hnd. unfold normalized.
  apply get_set_same. now repeat apply NoDup_labels_set_column.
Qed.

Lemma get_normalized_title x ts titles c :
  get_column "title" x = Ok c ->
  get_column "title" (normalized x ts titles) = Ok c.
Proof.
  intros Htitle. rewrite get_normalized_other; [assumption|].
  simpl. intuition discriminate.
Qed.

Lemma omin_defined ts t : In (Some t) ts -> exists a, omin ts = Some a.
Proof.
  intros Ht. destruct (omin ts) as [a|] eqn:Ea; [eauto|].
  elim (proj1 (omin_None ts) Ea t Ht).
Qed.

Lemma omax_defined ts t : In (Some t) ts -> exists b, omax ts = Some b.
Proof.
  intros Ht. destruct (omin_defined ts t Ht) as [a Ha].
  destruct (omax ts) as [b|] eqn:Eb; [eauto|].
  apply omin_omax_defined in Eb. congruence.
Qed.

Lemma active_days_pos ts t :
  In (Some t) ts ->
  1 <= Z.of_nat (length (nodup Z.eq_dec (map date_of (somes ts)))).
Proof.
  intros Ht.
  assert (In (date_of t) (map date_of (somes ts))) as Hin
      by (apply in_map; now apply somes_In).
  apply nodup_nonempty in Hin. lia.
Qed.


(** ** Cleaning a cleaned frame *)

Lemma settled_set_same k c df : settled k c (set_column k c df).
Proof.
  split.
  - apply has_column_In, In_labels_set_column.
  - unfold set_column. simpl. destruct (has_column k df) eqn:Ehas.
    + intros p Hp Hk. apply in_map_iff in Hp. destruct Hp as [q [Hq _]].
      destruct (labelled k q) eqn:Eq; [now subst p|]. subst p. congruence.
    + intros p Hp Hk. apply in_app_or in Hp. destruct Hp as [Hp|[<-|[]]]; [|reflexivity].
      assert (has_column k df = true); [|congruence].
      unfold has_column. apply existsb_exists. eauto.
Qed.

Lemma settled_set_other k k' c c' df :
  k <> k' -> settled k c df -> settled k c (set_column k' c' df).
Proof.
  intros Hne [Hhas Hall]. split.
  - apply has_column_In. rewrite labels_set_column.
    apply has_column_In in Hhas.
    destruct (has_column k' df); [assumption | apply in_or_app; now left].
  - assert (Hk' : labelled k (k', c') = false).
    { unfold labelled. simpl. destruct (String.eqb_spec k' k); congruence. }
    unfold set_column. simpl. destruct (has_column k' df).
    + intros p Hp Hk. apply in_map_iff in Hp. destruct Hp as [q [Hq Hin]].
      destruct (labelled k' q); subst p; [congruence | now apply Hall].
    + intros p Hp Hk. apply in_app_or in Hp.
      destruct Hp as [Hp|[<-|[]]]; [now apply Hall | congruence].
Qed.

Lemma set_column_settled k c df : settled k c df -> set_column k c df = df.
Proof.
  intros [Hhas Hall]. unfold set_column. rewrite Hhas. destruct df as [ix cols].
  simpl in *. f_equal. rewrite <- (map_id cols) at 2. apply map_ext_in.
  intros p Hp. destruct (labelled k p) eqn:E; [|reflexivity].
  symmetry. now apply Hall.
Qed.

Ltac settle :=
  unfold normalized;
  repeat first [ apply settled_set_same
               | apply settled_set_other; [discriminate|] ].

Lemma normalized_fixed x ts titles :
  normalized (normalized x ts titles) ts titles = normalized x ts titles.
Proof.
  unfold normalized at 1.
  rewrite (set_column_settled "date") by settle.
  rewrite (set_column_settled "year") by settle.
  rewrite (set_column_settled "month") by settle.
  rewrite (set_column_settled "day_of_week") by settle.
  rewrite (set_column_settled "hour") by settle.
  rewrite (set_column_settled "is_movie") by settle.
  now rewrite (set_column_settled "is_tv_show") by settle.
Qed.

Lemma rename_same k df : rename k k df = df.
Proof.
  unfold rename. destruct df as [ix cols]. simpl. f_equal.
  rewrite <- (map_id cols) at 2. apply map_ext. intros [k' c].
  unfold labelled. simpl. destruct (String.eqb_spec k' k); [now subst|reflexivity].
Qed.

Lemma has_column_absent k df : ~ In k (labels df) -> has_column k df = false.
Proof.
  intros Hk. destruct (has_column k df) eqn:E; [|reflexivity].
  apply has_column_In in E. contradiction.
Qed.

Lemma standardize_fixed df :
  ~ In "Title" (labels df) -> ~ In "Date" (labels df) ->
  ~ In "Profile Name" (labels df) ->
  standardize df = df.
Proof.
  intros H1 H2 H3. unfold standardize, column_mapping. cbn [fold_left].
  rewrite (has_column_absent "Title"), (has_column_absent "Date"),
    (has_column_absent "Profile Name") by assumption.
  rewrite !rename_same. now destruct (has_column "title" df), (has_column "date" df).
Qed.

Lemma canonical_label_canonical l :
  ~ In (canonical_label l) ["Title"; "Date"; "Profile Name"].
Proof.
  unfold canonical_label, column_mapping. cbn [fold_left].
  case_labels; simpl; intuition congruence.
Qed.

Lemma has_column_existsb k df :
  has_column k df = existsb (String.eqb k) (labels df).
Proof.
  unfold has_column, labels. induction (columns df) as [|p cols IH]; simpl; [reflexivity|].
  rewrite IH. unfold labelled. now rewrite String.eqb_sym.
Qed.

Lemma labels_set_new k c df l news :
  labels df = l ++ filter (absent_from l) news ->
  ~ In k news ->
  labels (set_column k c df) = l ++ filter (absent_from l) (news ++ [k]).
Proof.
  intros Hl Hk. rewrite labels_set_column, has_column_existsb, Hl.
  rewrite existsb_app, filter_app.
  assert (Hnew : existsb (String.eqb k) (filter (absent_from l) news) = false).
  { destruct (existsb _ _) eqn:E; [|reflexivity].
    apply existsb_exists in E. destruct E as [k' [Hin Hk']].
    apply String.eqb_eq in Hk'. subst k'. apply filter_In in Hin. tauto. }
  rewrite Hnew, orb_false_r.
  assert (Hlast : filter (absent_from l) [k]
                  = if existsb (String.eqb k) l then [] else [k]).
  { cbn [filter]. unfold absent_from. now destruct (existsb (String.eqb k) l). }
  rewrite Hlast.
  destruct (existsb (String.eqb k) l).
  - now rewrite app_nil_r.
  - now rewrite app_assoc.
Qed.

Lemma labels_normalized x ts titles :
  In "date" (labels x) ->
  labels (normalized x ts titles)
  = labels x ++ filter (absent_from (labels x)) feature_labels.
Proof.
  intros Hdate. unfold normalized, feature_labels.
  assert (H0 : labels (set_column "date" (Datetime ts) x)
               = labels x ++ filter (absent_from (labels x)) []).
  { rewrite labels_set_column. apply has_column_In in Hdate. rewrite Hdate.
    simpl. now rewrite app_nil_r. }
  pose proof (labels_set_new "year" (Int64 (map (option_map year_of) ts)) _ _ _ H0)
    as H1.
  cbn [app] in H1. specialize (H1 (fun H => H)).
  pose proof (labels_set_new "month" (Int64 (map (option_map month_of) ts)) _ _ _ H1)
    as H2.
  cbn [app] in H2. specialize (H2 ltac:(simpl; intuition discriminate)).
  pose proof (labels_set_new "day_of_week" (Text (map (option_map day_name_of) ts))
                _ _ _ H2) as H3.
  cbn [app] in H3. specialize (H3 ltac:(simpl; intuition discriminate)).
  pose proof (labels_set_new "hour" (Int64 (map (option_map hour_of) ts)) _ _ _ H3)
    as H4.
  cbn [app] in H4. specialize (H4 ltac:(simpl; intuition discriminate)).
  pose proof (labels_set_new "is_movie" (Boolean (is_movie_flags titles)) _ _ _ H4)
    as H5.
  cbn [app] in H5. specialize (H5 ltac:(simpl; intuition discriminate)).
  pose proof (labels_set_new "is_tv_show" (Boolean (map negb (is_movie_flags titles)))
                _ _ _ H5) as H6.
  cbn [app] in H6. specialize (H6 ltac:(simpl; intuition discriminate)).
  exact H6.
Qed.

Lemma get_column_labels k c df : get_column k df = Ok c -> In k (labels df).
Proof. intros Hget. now apply has_column_In, (get_column_has k c). Qed.

(** X16.  How the cleaned frame is labelled.  The columns of the input
    come first, in their order, [Title], [Date] and [Profile Name] renamed
    to [title], [date] and [profile_name] and every other label kept; then
    come, in this order, those of [year], [month], [day_of_week], [hour],
    [is_movie] and [is_tv_show] that the input did not have.  A column of
    the input that has one of these six labels is overwritten in place. *)
Theorem cleaned_frame_labels `{Platform}
    (s : store) (df : ref) (table : DataFrame) (c : ref) (s' : store) :
  nth_error s df = Some table ->
  clean_data df s = (Ok c, s') ->
  exists cleaned,
    nth_error s' c = Some cleaned /\
    labels cleaned
    = map canonical_label (labels table)
      ++ filter (absent_from (map canonical_label (labels table))) feature_labels /\
    canonical_label "Title" = "title" /\
    canonical_label "Date" = "date" /\
    canonical_label "Profile Name" = "profile_name" /\
    (forall l, ~ In l ["Title"; "Date"; "Profile Name"] -> canonical_label l = l).
Proof.
  intros Hdf Hrun.
  destruct (clean_data_ok s df table c s' Hdf Hrun)
    as (date & ts & titles & Hdate & _ & _ & _ & -> & ->).
  exists (normalized (standardize table) ts titles).
  split; [apply nth_error_first_new|].
  split.
  { rewrite labels_normalized by (eapply get_column_labels, Hdate).
    now rewrite labels_standardize. }
  repeat split.
  intros l Hl. unfold canonical_label, column_mapping. cbn [fold_left].
  simpl in Hl. case_labels; try reflexivity; intuition congruence.
Qed.

(** X17.  Cleaning is idempotent.  The frame [clean_data] returns can be
    cleaned again, and the frame this gives is equal to it: nothing is
    renamed, the timestamps are kept as they are, and every derived column
    is computed to the value it has. *)
Theorem cleaning_is_idempotent `{Platform}
    (s : store) (df : ref) (table : DataFrame) (c : ref) (s' : store) :
  nth_error s df = Some table ->
  clean_data df s = (Ok c, s') ->
  exists cleaned,
    nth_error s' c = Some cleaned /\
    clean_data c s' = (Ok (length s'), s' ++ [cleaned]).
Proof.
  intros Hdf Hrun.
  destruct (clean_data_ok s df table c s' Hdf Hrun)
    as (date & ts & titles & Hdate & Hparse & Htitle & Hmovie & -> & ->).
  set (cleaned_df := normalized (standardize table) ts titles) in *.
  exists cleaned_df. split; [apply nth_error_first_new|].
  assert (Hfix : standardize cleaned_df = cleaned_df).
  { assert (Hlabels : forall l, In l (labels cleaned_df) ->
                                ~ In l ["Title"; "Date"; "Profile Name"]).
    { intros l Hl. unfold cleaned_df in Hl.
      rewrite labels_normalized in Hl by (eapply get_column_labels, Hdate).
      apply in_app_or in Hl. destruct Hl as [Hl|Hl].
      - rewrite labels_standardize in Hl. apply in_map_iff in Hl.
        destruct Hl as [l' [<- _]]. apply canonical_label_canonical.
      - apply filter_In in Hl. destruct Hl as [Hl _].
        unfold feature_labels in Hl. simpl in Hl. simpl. intuition congruence. }
    apply standardize_fixed; intros Hin; apply (Hlabels _ Hin); simpl; tauto. }
  assert (Hnorm : normalized (standardize cleaned_df) ts titles = cleaned_df).
  { rewrite Hfix. apply normalized_fixed. }
  pose proof (clean_data_returns (s ++ [cleaned_df]) (length s) cleaned_df
                (Datetime ts) ts titles) as Hagain.
  rewrite Hnorm, Hfix in Hagain. apply Hagain.
  - apply nth_error_first_new.
  - eapply get_normalized_date, Hdate.
  - reflexivity.
  - now apply get_normalized_title.
  - exact Hmovie.
Qed.

(** ** The timeline *)

Lemma somes_map {A B} (f : A -> B) (xs : list (option A)) :
  somes (map (option_map f) xs) = map f (somes xs).
Proof.
  unfold somes. induction xs as [|[x|] xs IH]; simpl; [reflexivity| |assumption].
  now rewrite IH.
Qed.

Lemma positions_of_length k ks :
  Z.of_nat (length (positions_of k ks)) = occurrences Z.eqb k (somes ks).
Proof.
  unfold positions_of, occurrences. rewrite length_map. f_equal.
  generalize 0%nat. unfold somes.
  induction ks as [|[x|] ks IH]; intros start; simpl; [reflexivity| |apply IH].
  rewrite (Z.eqb_sym x k). destruct (k =? x); simpl; now rewrite IH.
Qed.

Lemma group_keys_sorted ks : StronglySorted Z.lt (group_keys ks).
Proof.
  unfold group_keys. apply sorted_NoDup_strict.
  - apply sort_keys_sorted.
  - eapply Permutation_NoDup; [symmetry; apply sort_keys_Permutation|].
    apply NoDup_nodup.
Qed.

Lemma group_keys_somes ks k : In k (group_keys ks) <-> In k (somes ks).
Proof.
  unfold group_keys. split; intros Hin.
  - eapply Permutation_in in Hin; [|apply sort_keys_Permutation].
    now apply nodup_In in Hin.
  - eapply Permutation_in; [symmetry; apply sort_keys_Permutation|].
    now apply nodup_In.
Qed.

Lemma total_group_sizes ks :
  total (fun k => Z.of_nat (length (positions_of k ks))) (group_keys ks)
  = Z.of_nat (length (somes ks)).
Proof.
  rewrite (total_ext _ (fun k => occurrences Z.eqb k (somes ks)))
    by (intros k _; apply positions_of_length).
  rewrite <- (total_occurrences Z.eqb Z.eqb_eq (somes ks)).
  apply total_Permutation. apply NoDup_Permutation.
  - apply group_keys_NoDup.
  - apply (uniques_NoDup Z.eqb Z.eqb_eq).
  - intros k. rewrite group_keys_somes. symmetry. apply (uniques_In Z.eqb Z.eqb_eq).
Qed.

(** X18.  The timeline counts the views of each month.  On a frame with a
    datetime column [date], [viewing_timeline] changes nothing; the months
    of its series are in ascending order, each once, and they are the
    months in which some record has its timestamp; the count of a month
    is the number of such records, so at least one, and a month without a
    view is not in the series.  The counts add up to the number of records
    with a timestamp: a record without one is in no month. *)
Theorem timeline_counts_by_month
    (s : store) (df : ref) (frame : DataFrame) (ts : list (option Z)) :
  nth_error s df = Some frame ->
  get_column "date" frame = Ok (Datetime ts) ->
  exists monthly,
    viewing_timeline df s = (Ok monthly, s) /\
    StronglySorted Z.lt (map fst monthly) /\
    (forall m, In m (map fst monthly) <->
               exists t, In (Some t) ts /\ month_period t = m) /\
    (forall m n, In (m, n) monthly ->
                 n = occurrences Z.eqb m (map month_period (somes ts)) /\ 1 <= n) /\
    total snd monthly = Z.of_nat (length (somes ts)).
Proof.
  intros Hdf Hdate.
  set (ks := map (option_map month_period) ts).
  assert (Hkeys : map fst (map (fun g : Z * list nat => (fst g, Z.of_nat (length (snd g))))
                             (groupby_indices ks)) = group_keys ks).
  { unfold groupby_indices. rewrite !map_map. simpl. apply map_id. }
  assert (Hin : forall m, In m (group_keys ks) <->
                          exists t, In (Some t) ts /\ month_period t = m).
  { intros m. rewrite group_keys_somes. unfold ks. rewrite somes_map, in_map_iff.
    split; intros [t [H1 H2]]; exists t.
    - split; [|assumption]. revert H2. unfold somes. rewrite in_flat_map.
      intros [[x|] [Hx Hin]]; simpl in Hin; [|contradiction].
      destruct Hin as [->|[]]. assumption.
    - split; [assumption|]. now apply somes_In. }
  eexists. split.
  { unfold viewing_timeline, bind, lift. rewrite (run_getitem _ _ _ _ Hdf), Hdate.
    reflexivity. }
  fold ks. split; [rewrite Hkeys; apply group_keys_sorted|].
  split; [intros m; rewrite Hkeys; apply Hin|].
  split.
  - intros m n Hmn. apply in_map_iff in Hmn. destruct Hmn as [[k rows] [Heq Hg]].
    simpl in Heq. injection Heq as -> <-.
    unfold groupby_indices in Hg. apply in_map_iff in Hg.
    destruct Hg as [k [Heq Hk]]. injection Heq as -> <-.
    rewrite positions_of_length. unfold ks. rewrite somes_map.
    split; [reflexivity|].
    apply (occurrences_pos Z.eqb Z.eqb_eq).
    apply (proj1 (group_keys_somes _ _)) in Hk. unfold ks in Hk.
    now rewrite somes_map in Hk.
  - unfold groupby_indices. rewrite !total_map. simpl.
    rewrite total_group_sizes. unfold ks. now rewrite somes_map, length_map.
Qed.

(** ** The labels of the bar chart *)

(** X19.  The label of a bar is the title, cut when it is long: a title of
    at most 30 characters is its own label; a longer one is labelled by its
    first 30 characters and three dots, 33 characters in all.  So no label
    is longer than 33 characters, and two titles that agree on their first
    30 characters and are both longer get the same label. *)
Theorem bar_label_is_cut (title : str) :
  ((length title <= 30)%nat -> bar_label title = title) /\
  ((30 < length title)%nat ->
   bar_label title = firstn 30 title ++ of_string "..." /\
   length (bar_label title) = 33%nat) /\
  (length (bar_label title) <= 33)%nat /\
  firstn 30 (bar_label title) = firstn 30 title /\
  (forall other,
      (30 < length title)%nat -> (30 < length other)%nat ->
      firstn 30 title = firstn 30 other -> bar_label title = bar_label other).
Proof.
  unfold bar_label.
  assert (Hdots : length (of_string "...") = 3%nat) by reflexivity.
  split; [|split; [|split; [|split]]].
  - intros Hle. destruct (Nat.ltb_spec 30 (length title)); [lia | reflexivity].
  - intros Hlt. destruct (Nat.ltb_spec 30 (length title)); [|lia].
    split; [reflexivity|]. rewrite length_app, length_firstn, Hdots. lia.
  - destruct (Nat.ltb_spec 30 (length title)); [|lia].
    rewrite length_app, length_firstn, Hdots. lia.
  - destruct (Nat.ltb_spec 30 (length title)); [|reflexivity].
    rewrite firstn_app, length_firstn.
    replace (30 - Nat.min 30 (length title))%nat with 0%nat by lia.
    rewrite firstn_firstn. simpl. now rewrite app_nil_r.
  - intros other Ht Ho Heq.
    destruct (Nat.ltb_spec 30 (length title)); [|lia].
    destruct (Nat.ltb_spec 30 (length other)); [|lia].
    now rewrite Heq.
Qed.

(** ** The calendar columns *)

Lemma month_of_range t : 1 <= month_of t <= 12.
Proof.
  unfold month_of, civil_of_days. cbv zeta. cbn [snd].
  set (z := date_of t + 719468).
  set (doe := z - z / 146097 * 146097).
  assert (Hdoe : 0 <= doe <= 146096).
  { unfold doe. pose proof (Z.mod_pos_bound z 146097 ltac:(lia)) as Hm.
    rewrite Z.mod_eq in Hm by lia. lia. }
  clearbody doe. clear z.
  set (yoe := (doe - doe / 1460 + doe / 36524 - doe / 146096) / 365).
  set (doy := doe - (365 * yoe + yoe / 4 - yoe / 100)).
  assert (Hdoy : 0 <= doy <= 365).
  { unfold doy, yoe. Z.div_mod_to_equations; lia. }
  clearbody doy. clear yoe.
  destruct (Z.ltb_spec ((5 * doy + 2) / 153) 10); Z.div_mod_to_equations; lia.
Qed.

Lemma hour_of_range t : 0 <= hour_of t <= 23.
Proof.
  unfold hour_of, ns_per_day, ns_per_hour, ns_per_second.
  pose proof (Z.mod_pos_bound t (24 * (3600 * 1000000000)) ltac:(lia)) as Hm.
  Z.div_mod_to_equations; lia.
Qed.

Lemma day_name_of_named t : exists d, day_name_of t = of_string d /\ In d day_names.
Proof.
  unfold day_name_of.
  pose proof (Z.mod_pos_bound (date_of t + 3) 7 ltac:(lia)) as Hm.
  exists (nth (Z.to_nat ((date_of t + 3) mod 7)) day_names "").
  split; [reflexivity|]. apply nth_In. simpl. lia.
Qed.

Ltac read_normalized :=
  unfold normalized; rewrite ?get_set_other by discriminate;
  apply get_set_same; now repeat apply NoDup_labels_set_column.

Lemma nth_error_map_Some {A B} (f : A -> B) (l : list (option A)) i x :
  nth_error l i = Some (Some x) ->
  nth_error (map (option_map f) l) i = Some (Some (f x)).
Proof. intros Hi. now rewrite nth_error_map, Hi. Qed.

Lemma nth_error_map_None {A B} (f : A -> B) (l : list (option A)) i :
  nth_error l i = Some None ->
  nth_error (map (option_map f) l) i = Some None.
Proof. intros Hi. now rewrite nth_error_map, Hi. Qed.


(** ** After cleaning *)


(** * The further properties at the sample tables *)

(** The sample directory meets the hypotheses of X1: the first two
    candidates are missing and the third is read. *)
Lemma load_data_first_match_wins_witness :
  (possible_files
   = ["NetflixViewingHistory.csv"; "netflix-viewing-history.csv"]
     ++ "sample_data.csv" :: ["viewing-history.csv"] /\
   sample_directory "sample_data.csv" = Some (Ok sample_history)) /\
  load_data sample_directory = Ok (Some sample_history).
Proof.
  split; [split; reflexivity|].
  apply (load_data_first_match_wins sample_directory
           ["NetflixViewingHistory.csv"; "netflix-viewing-history.csv"]
           ["viewing-history.csv"] "sample_data.csv" (Ok sample_history)).
  - reflexivity.
  - intros f [<-|[<-|[]]]; reflexivity.
  - reflexivity.
Defined.

(** The cleaned sample history meets the hypotheses of X3. *)
Lemma top_titles_are_counted_witness :
  get_column "title" cleaned_history = Ok (Text history_titles) /\
  exists ranking,
    @find_top_titles stable_platform 0%nat 8 [cleaned_history]
    = (Ok ranking, [cleaned_history]) /\
    NoDup (map fst ranking).
Proof.
  split; [reflexivity|].
  destruct (@top_titles_are_counted stable_platform
              [cleaned_history] 0%nat cleaned_history history_titles 8
              eq_refl eq_refl)
    as (ranking & Hrun & _ & Hnd & _).
  exists ranking. auto.
Defined.

(** The cleaned sample history meets the hypotheses of X4. *)
Lemma top_titles_are_the_most_watched_witness :
  get_column "title" cleaned_history = Ok (Text history_titles) /\
  exists ranking,
    @find_top_titles stable_platform 0%nat 8 [cleaned_history]
    = (Ok ranking, [cleaned_history]) /\
    StronglySorted (fun a b => snd b <= snd a) ranking.
Proof.
  split; [reflexivity|].
  destruct (@top_titles_are_the_most_watched stable_platform
              [cleaned_history] 0%nat cleaned_history history_titles 8
              eq_refl eq_refl)
    as (ranking & Hrun & Hsorted & _).
  exists ranking. auto.
Defined.







(** The cleaned sample history meets the hypotheses of X12: it has a
    timestamp, and its three views are reported. *)
Lemma report_needs_a_date_witness :
  (get_column "date" cleaned_history = Ok (Datetime history_dates) /\
   get_column "is_movie" cleaned_history = Ok (Boolean [false; true; false]) /\
   get_column "is_tv_show" cleaned_history = Ok (Boolean [true; false; true])) /\
  exists stats,
    show_basic_stats 0%nat [cleaned_history] = (Ok stats, [cleaned_history]) /\
    total_views stats = 3.
Proof.
  split; [repeat split|].
  destruct (report_needs_a_date [cleaned_history] 0%nat cleaned_history
              history_dates [false; true; false] [true; false; true]
              eq_refl eq_refl eq_refl eq_refl) as [_ Hsome].
  destruct (Hsome 1704225600000000000 (or_introl eq_refl))
    as (stats & Hrun & Hviews & _).
  exists stats. auto.
Defined.

(** The views without a date and without a title meet the hypotheses of
    X13. *)
Lemma missing_column_is_fatal_witness :
  fst (@clean_data stable_platform 0%nat [undated_view]) = Err (KeyError "date") /\
  fst (@clean_data stable_platform 0%nat [untitled_view]) = Err (KeyError "title").
Proof.
  split.
  - destruct (@missing_column_is_fatal stable_platform
                [undated_view] 0%nat undated_view eq_refl) as [Hdate _].
    apply Hdate; simpl; intuition discriminate.
  - destruct (@missing_column_is_fatal stable_platform
                [untitled_view] 0%nat untitled_view eq_refl) as [_ Htitle].
    apply (Htitle (text ["2024-01-01 10:00"]) [Some 1704103200000000000]).
    + reflexivity.
    + vm_compute. reflexivity.
    + simpl. intuition discriminate.
    + simpl. intuition discriminate.
Defined.

(** The views under both spellings meet the hypotheses of X14. *)
Lemma both_spellings_are_refused_witness :
  fst (@clean_data stable_platform 0%nat [doubled_view]) = Err (NotASeries "date") /\
  fst (@clean_data stable_platform 0%nat [doubled_titles]) = Err (NotASeries "title").
Proof.
  split.
  - destruct (@both_spellings_are_refused stable_platform
                [doubled_view] 0%nat doubled_view eq_refl) as [Hdate _].
    apply Hdate; simpl; tauto.
  - destruct (@both_spellings_are_refused stable_platform
                [doubled_titles] 0%nat doubled_titles eq_refl) as [_ Htitle].
    apply (Htitle (text ["2024-01-01 10:00"]) [Some 1704103200000000000]).
    + reflexivity.
    + vm_compute. reflexivity.
    + simpl. tauto.
    + simpl. tauto.
Defined.


(** The sample history meets the hypotheses of X16. *)
Lemma cleaned_frame_labels_witness :
  @clean_data stable_platform 0%nat [sample_history]
  = (Ok 1%nat, [sample_history; cleaned_history]) /\
  labels cleaned_history
  = ["title"; "date"; "year"; "month"; "day_of_week"; "hour"; "is_movie"; "is_tv_show"].
Proof.
  split; [exact sample_history_is_normalized|].
  destruct (@cleaned_frame_labels stable_platform [sample_history] 0%nat
              sample_history 1%nat [sample_history; cleaned_history]
              eq_refl sample_history_is_normalized)
    as (cleaned & Hcleaned & Hlabels & _).
  injection Hcleaned as <-. rewrite Hlabels. reflexivity.
Defined.

(** The sample history meets the hypotheses of X17. *)
Lemma cleaning_is_idempotent_witness :
  @clean_data stable_platform 0%nat [sample_history]
  = (Ok 1%nat, [sample_history; cleaned_history]) /\
  @clean_data stable_platform 1%nat [sample_history; cleaned_history]
  = (Ok 2%nat, [sample_history; cleaned_history; cleaned_history]).
Proof.
  split; [exact sample_history_is_normalized|].
  destruct (@cleaning_is_idempotent stable_platform [sample_history] 0%nat
              sample_history 1%nat [sample_history; cleaned_history]
              eq_refl sample_history_is_normalized)
    as (cleaned & Hcleaned & Hagain).
  injection Hcleaned as <-. exact Hagain.
Defined.

(** The cleaned sample history meets the hypotheses of X18: its three
    views are in one month. *)
Lemma timeline_counts_by_month_witness :
  get_column "date" cleaned_history = Ok (Datetime history_dates) /\
  exists monthly,
    viewing_timeline 0%nat [cleaned_history] = (Ok monthly, [cleaned_history]) /\
    total snd monthly = 3.
Proof.
  split; [reflexivity|].
  destruct (timeline_counts_by_month [cleaned_history] 0%nat cleaned_history
              history_dates eq_refl eq_refl)
    as (monthly & Hrun & _ & _ & _ & Htotal).
  exists monthly. auto.
Defined.


